(** * HoloCommerce API: the product query engine and the session cart

    A shallow embedding of the request handlers of [main.py]
    ([list_products], [get_product], [get_categories], [get_cart],
    [upsert_cart], the startup hook [seed_products] and the status report
    [test_database]) over an explicit model of the document store, the
    properties of the handlers stated in the specification, and further
    properties read off the code.

    Conventions.
    - The module-level handle [db] is [None] when the store is not
      configured; it is passed explicitly as [option Database].
    - A collection is the list of its documents in natural (insertion)
      order.  Documents are records: the stored key [_id] next to the
      fields of the document.
    - Prices and ratings are finite floats that are only ever compared;
      they are represented by the rationals they denote.
    - A handler either returns a value or raises: [result].
    - What the external libraries decide (parsing and printing of object
      ids, generation of a key on insert, regular expression search) is
      taken as a parameter of the development.
    - The store refuses two things the handlers can send it: a pattern
      that is no regular expression ([regex_valid]) and an integer beyond
      8 bytes ([bson_encodable]).  It then raises, and the handlers, which
      catch neither, raise with it.  A lost connection is outside the
      model.
    - The order in which the store returns distinct values is the
      store's ([distinct_order]). *)

From Stdlib Require Import ZArith QArith Lia String Ascii List.
From stdpp Require Import base decidable option numbers list sorting strings.
Import ListNotations.

Close Scope Q_scope.
Local Open Scope string_scope.
Local Open Scope Z_scope.
Local Open Scope list_scope.

(** ** Outcomes of a handler *)

Inductive exn : Type :=
  | HTTPException (status_code : Z) (detail : string)
  | Exception (msg : string)
  | OperationFailure (msg : string)
  | OverflowError (msg : string).

Inductive result (A : Type) : Type :=
  | Ok (a : A)
  | Raise (e : exn).
Arguments Ok {A} a.
Arguments Raise {A} e.

(** A raised exception skips the rest of the handler. *)
#[global] Instance result_bind : MBind result :=
  fun A B (k : A -> result B) (r : result A) =>
    match r with
    | Ok a => k a
    | Raise e => Raise e
    end.

#[global] Instance result_ret : MRet result := fun A a => Ok a.

Definition raises {A : Type} (r : result A) : Prop :=
  exists e, r = Raise e.

(** ** Data model *)

(** The fields of a product document, as the seeded records have them. *)
Record Product : Type := {
  title : string;
  description : string;
  price : Q;
  category : string;
  in_stock : bool;
  image : string;
  gallery : list string;
  colors : list string;
  materials : list string;
  rating : Q;
  featured : bool;
  model_url : option string;
  tags : list string
}.

(** [class CartItem(BaseModel)] and [class Cart(BaseModel)]. *)
Record CartItem : Type := {
  product_id : string;
  quantity : Z
}.

Record Cart : Type := {
  session_id : string;
  items : list CartItem
}.

(** A cart as a handler returns it: the dictionary has the key ["id"]
    only on some paths. *)
Record CartOut : Type := {
  out_id : option string;
  out_session_id : string;
  out_items : list CartItem
}.

(** What the store can encode of a cart: an integer of at most 8 bytes.
    A larger one makes the encoding of the document raise
    [OverflowError], before anything is written. *)
Definition int64 (z : Z) : bool :=
  (- 2 ^ 63 <=? z) && (z <? 2 ^ 63).

Definition bson_encodable (its : list CartItem) : bool :=
  forallb (fun it => int64 (quantity it)) its.

Definition too_large : exn :=
  OverflowError "MongoDB can only handle up to 8-byte ints".

(** [cart.model_dump()]: the dictionary of the two fields, no ["id"]. *)
Definition model_dump (c : Cart) : CartOut :=
  {| out_id := None; out_session_id := session_id c; out_items := items c |}.

(** The filter dictionary [filt] of [list_products].  Its keys are fixed
    (["$or"], ["category"], ["price"], ["featured"]), so it is a record of
    optional entries; [price_cond] likewise has the keys ["$gte"] and
    ["$lte"]. *)
Inductive TextField : Type := Title | Description | Tags.

Record RegexClause : Type := {
  rc_field : TextField;
  rc_regex : string;
  rc_options : string
}.

Record PriceCond : Type := {
  gte : option Q;
  lte : option Q
}.

Record MongoFilter : Type := {
  f_or : option (list RegexClause);
  f_category : option string;
  f_price : option PriceCond;
  f_featured : option bool
}.

Definition empty_filter : MongoFilter :=
  {| f_or := None; f_category := None; f_price := None; f_featured := None |}.

(** Python truthiness of an [Optional[str]]: [None] and [""] are falsy. *)
Definition truthy (o : option string) : bool :=
  match o with
  | None => false
  | Some s => negb (String.eqb s "")
  end.

(** Truthiness of the dictionary [price_cond]: non-empty. *)
Definition price_cond_truthy (pc : PriceCond) : bool :=
  match gte pc, lte pc with
  | None, None => false
  | _, _ => true
  end.

(** Lines 192-209: the filter built from the request parameters. *)
Definition build_filter (q category : option string)
    (min_price max_price : option Q) (featured : option bool) : MongoFilter :=
  let filt := empty_filter in
  let filt :=
    if truthy q then
      let pat := default "" q in
      {| f_or := Some [ {| rc_field := Title; rc_regex := pat; rc_options := "i" |};
                        {| rc_field := Description; rc_regex := pat; rc_options := "i" |};
                        {| rc_field := Tags; rc_regex := pat; rc_options := "i" |} ];
         f_category := f_category filt; f_price := f_price filt;
         f_featured := f_featured filt |}
    else filt in
  let filt :=
    if truthy category then
      {| f_or := f_or filt; f_category := category; f_price := f_price filt;
         f_featured := f_featured filt |}
    else filt in
  let price_cond := {| gte := None; lte := None |} in
  let price_cond :=
    match min_price with
    | Some m => {| gte := Some m; lte := lte price_cond |}
    | None => price_cond
    end in
  let price_cond :=
    match max_price with
    | Some m => {| gte := gte price_cond; lte := Some m |}
    | None => price_cond
    end in
  let filt :=
    if price_cond_truthy price_cond then
      {| f_or := f_or filt; f_category := f_category filt;
         f_price := Some price_cond; f_featured := f_featured filt |}
    else filt in
  let filt :=
    match featured with
    | Some b =>
      {| f_or := f_or filt; f_category := f_category filt;
         f_price := f_price filt; f_featured := Some b |}
    | None => filt
    end in
  filt.

(** The fallback of [get_categories]. *)
Definition fallback_categories : list string :=
  ["Watches"; "Wearables"; "Tech"; "Wallets"; "Jewelry"; "Eyewear"].

(** ** Cursors *)

(** A stable insertion sort: [x], which precedes the elements of [l] in
    the input, stays before those it ties with. *)
Fixpoint sort_insert {A : Type} (le : A -> A -> bool) (x : A) (l : list A) : list A :=
  match l with
  | [] => [x]
  | y :: l' => if le x y then x :: l else y :: sort_insert le x l'
  end.

Fixpoint sort_by {A : Type} (le : A -> A -> bool) (l : list A) : list A :=
  match l with
  | [] => []
  | x :: l' => sort_insert le x (sort_by le l')
  end.

(** [cursor.limit(n)]: [0] means no limit, a negative [n] limits to
    [-n] documents. *)
Definition cursor_limit {A : Type} (n : Z) (l : list A) : list A :=
  if n =? 0 then l else take (Z.abs_nat n) l.

(** The numeric field a cursor is sorted on. *)
Definition num_field (field : string) (p : Product) : Q :=
  if String.eqb field "price" then price p
  else if String.eqb field "rating" then rating p
  else 0%Q.

(** The distinct values of a list, each once.  The store returns them in
    an order of its own, see [distinct_order]. *)
Fixpoint distinct_values (seen l : list string) : list string :=
  match l with
  | [] => []
  | x :: l' =>
    if bool_decide (x ∈ seen) then distinct_values seen l'
    else x :: distinct_values (x :: seen) l'
  end.

(** ** The seeded catalogue and the status report *)

(** [demo_products] of [seed_products], lines 37-131. *)
Definition demo_products : list Product :=
  [ {| title := "Aether Chrono X1";
       description := "Premium titanium watch with sapphire crystal, neon lume, and quantum-precision movement.";
       price := 1299;
       category := "Watches";
       in_stock := true;
       image := "https://images.unsplash.com/photo-1518544801976-3e188ae4fab1?q=80&w=1600&auto=format&fit=crop";
       gallery :=
         [ "https://images.unsplash.com/photo-1524805444758-089113d48a6f?q=80&w=1600&auto=format&fit=crop";
           "https://images.unsplash.com/photo-1516826957135-700dedea698c?q=80&w=1600&auto=format&fit=crop" ];
       colors := ["titanium"; "onyx"];
       materials := ["titanium"; "sapphire"];
       rating := 49 # 10;
       featured := true;
       model_url := None;
       tags := ["chrono"; "luxury"; "neon"] |};
    {| title := "Nebula Wallet Pro";
       description := "Slim carbon-fiber wallet with RFID shield and magnetic quick-access.";
       price := 189;
       category := "Wallets";
       in_stock := true;
       image := "https://images.unsplash.com/photo-1610701592028-0b4f6a9817d4?q=80&w=1600&auto=format&fit=crop";
       gallery := [];
       colors := ["carbon"; "silver"];
       materials := ["carbon fiber"; "aluminum"];
       rating := 47 # 10;
       featured := true;
       model_url := None;
       tags := ["rfid"; "slim"] |};
    {| title := "Flux Rings Set";
       description := "Stackable rings with iridescent finish and subtle lumen edge.";
       price := 129;
       category := "Jewelry";
       in_stock := true;
       image := "https://images.unsplash.com/photo-1522335789203-aabd1fc54bc9?q=80&w=1600&auto=format&fit=crop";
       gallery := [];
       colors := ["violet"; "steel"];
       materials := ["steel"];
       rating := 46 # 10;
       featured := false;
       model_url := None;
       tags := ["rings"; "iridescent"] |};
    {| title := "Spectra AR Shades";
       description := "Next-gen eyewear with polarized optics and AR-ready frame.";
       price := 349;
       category := "Eyewear";
       in_stock := true;
       image := "https://images.unsplash.com/photo-1511499767150-a48a237f0083?q=80&w=1600&auto=format&fit=crop";
       gallery := [];
       colors := ["black"; "smoke"];
       materials := ["polycarbonate"];
       rating := 45 # 10;
       featured := true;
       model_url := None;
       tags := ["ar"; "polarized"] |};
    {| title := "Pulse Band S";
       description := "Holographic wearable with health telemetry and soft neon glow.";
       price := 499;
       category := "Wearables";
       in_stock := true;
       image := "https://images.unsplash.com/photo-1526401485004-2fda9f4fced4?q=80&w=1600&auto=format&fit=crop";
       gallery := [];
       colors := ["teal"; "violet"];
       materials := ["silicone"; "aluminum"];
       rating := 44 # 10;
       featured := false;
       model_url := None;
       tags := ["health"; "wearable"] |};
    {| title := "Ion Dock +";
       description := "Minimal magnetic charger with soft white halo illumination.";
       price := 89;
       category := "Tech";
       in_stock := true;
       image := "https://images.unsplash.com/photo-1517495306984-937b1812c8a7?q=80&w=1600&auto=format&fit=crop";
       gallery := [];
       colors := ["white"; "graphite"];
       materials := ["aluminum"];
       rating := 43 # 10;
       featured := false;
       model_url := None;
       tags := ["charger"; "dock"] |} ].

(** What [test_database] reads of the handle [db] and of the environment:
    the outcomes of [db.name] and of [db.list_collection_names()] (the
    value, or the message of the exception raised), and the two
    variables. *)
Inductive outcome (A : Type) : Type :=
  | Returned (a : A)
  | Failed (message : string).
Arguments Returned {A} a.
Arguments Failed {A} message.

Record Handle : Type := {
  name : outcome string;
  list_collection_names : outcome (list string)
}.

(** A Python string is kept as its UTF-8 bytes.  A byte [10xxxxxx]
    continues the character begun before it; every other byte begins
    one. *)
Definition continues (a : ascii) : bool :=
  let n := N_of_ascii a in (128 <=? n)%N && (n <? 192)%N.

(** The number of characters of a string. *)
Fixpoint len (s : string) : nat :=
  match s with
  | EmptyString => O
  | String a s' => if continues a then len s' else S (len s')
  end.

(** [s[:n]]: the first [n] characters, each with all its bytes. *)
Fixpoint slice_to (n : nat) (s : string) : string :=
  match s with
  | EmptyString => EmptyString
  | String a s' =>
    if continues a then String a (slice_to n s')
    else match n with
         | O => EmptyString
         | S k => String a (slice_to k s')
         end
  end.

Record Status : Type := {
  backend : string;
  database : string;
  database_url : option string;
  database_name : option string;
  connection_status : string;
  collections : list string
}.

(** [os.getenv(k)] as a condition: unset and empty are both falsy. *)
Definition set_or_not (v : option string) : string :=
  if truthy v then "✅ Set" else "❌ Not Set".

(** [GET /test], lines 146-176, assignment by assignment; an exception
    of [db.name] leaves the inner block for the outer [except]. *)
Definition test_database (db : option Handle)
    (DATABASE_URL DATABASE_NAME : option string) : Status :=
  let response :=
    {| backend := "✅ Running";
       database := "❌ Not Available";
       database_url := None;
       database_name := None;
       connection_status := "Not Connected";
       collections := [] |} in
  let response :=
    match db with
    | Some h =>
      let response :=
        {| backend := backend response;
           database := "✅ Available";
           database_url := Some "✅ Configured";
           database_name := database_name response;
           connection_status := connection_status response;
           collections := collections response |} in
      match name h with
      | Returned db_name =>
        let response :=
          {| backend := backend response;
             database := database response;
             database_url := database_url response;
             database_name := Some db_name;
             connection_status := "Connected";
             collections := collections response |} in
        match list_collection_names h with
        | Returned names =>
          {| backend := backend response;
             database := "✅ Connected & Working";
             database_url := database_url response;
             database_name := database_name response;
             connection_status := connection_status response;
             collections := take 10 names |}
        | Failed message =>
          {| backend := backend response;
             database := "⚠️  Connected but Error: " ++ slice_to 50 message;
             database_url := database_url response;
             database_name := database_name response;
             connection_status := connection_status response;
             collections := collections response |}
        end
      | Failed message =>
        {| backend := backend response;
           database := "❌ Error: " ++ slice_to 50 message;
           database_url := database_url response;
           database_name := database_name response;
           connection_status := connection_status response;
           collections := collections response |}
      end
    | None =>
      {| backend := backend response;
         database := "⚠️  Available but not initialized";
         database_url := database_url response;
         database_name := database_name response;
         connection_status := connection_status response;
         collections := collections response |}
    end in
  {| backend := backend response;
     database := database response;
     database_url := Some (set_or_not DATABASE_URL);
     database_name := Some (set_or_not DATABASE_NAME);
     connection_status := connection_status response;
     collections := collections response |}.

(** The items of the last cart of the session [sid], among those the
    store can encode, in a sequence of submitted carts, if there is
    one. *)
Definition last_items (sid : string) (carts : list Cart) : option (list CartItem) :=
  foldl (fun acc c =>
           if String.eqb (session_id c) sid && bson_encodable (items c)
           then Some (items c) else acc)
    None carts.

Section Backend.

(** The key type of the store ([bson.ObjectId]) with its constructor
    from a string ([None] when [ObjectId(s)] raises), its [str], and
    the key the store gives a new document. *)
Context {oid : Type} `{EqDecision oid}.
Variable ObjectId : string -> option oid.
Variable str : oid -> string.
Variable fresh_oid : list oid -> oid.
Hypothesis fresh_oid_fresh : forall l : list oid, fresh_oid l ∉ l.

(** [regex_search pattern options subject]: the store's [$regex]. *)
Variable regex_search : string -> string -> string -> bool.

(** [regex_valid pattern]: the store takes the pattern for a regular
    expression; a query with another pattern is refused. *)
Variable regex_valid : string -> bool.

(** The order in which the store returns distinct values. *)
Variable distinct_order : list string -> list string.

(** *** Stored documents *)

Record ProductDoc : Type := {
  product_oid : oid;
  product_fields : Product
}.

Record CartDoc : Type := {
  cart_oid : oid;
  cart_session_id : string;
  cart_items : list CartItem
}.

Record Database : Type := {
  product : list ProductDoc;
  cart : list CartDoc
}.

(** A product as [list_products] and [get_product] return it: ["_id"]
    popped, ["id"] set to its [str], the other fields untouched. *)
Record ProductOut : Type := {
  id : string;
  fields : Product
}.

Record ProductList : Type := {
  pl_items : list ProductOut;
  pl_total : Z
}.

Definition normalize_product (doc : ProductDoc) : ProductOut :=
  {| id := str (product_oid doc); fields := product_fields doc |}.

Definition normalize_cart (doc : CartDoc) : CartOut :=
  {| out_id := Some (str (cart_oid doc));
     out_session_id := cart_session_id doc;
     out_items := cart_items doc |}.

(** *** Query evaluation *)

Definition clause_holds (p : Product) (c : RegexClause) : bool :=
  match rc_field c with
  | Title => regex_search (rc_regex c) (rc_options c) (title p)
  | Description => regex_search (rc_regex c) (rc_options c) (description p)
  | Tags => existsb (regex_search (rc_regex c) (rc_options c)) (tags p)
  end.

Definition price_holds (pc : PriceCond) (p : Product) : bool :=
  match gte pc with
  | Some m => Qle_bool m (price p)
  | None => true
  end
  &&
  match lte pc with
  | Some m => Qle_bool (price p) m
  | None => true
  end.

(** A document matches the filter when every entry present holds. *)
Definition matches (filt : MongoFilter) (doc : ProductDoc) : bool :=
  let p := product_fields doc in
  match f_or filt with
  | Some clauses => existsb (clause_holds p) clauses
  | None => true
  end
  &&
  match f_category filt with
  | Some c => String.eqb (category p) c
  | None => true
  end
  &&
  match f_price filt with
  | Some pc => price_holds pc p
  | None => true
  end
  &&
  match f_featured filt with
  | Some b => Bool.eqb (featured p) b
  | None => true
  end.

(** The documents of a collection that match the filter. *)
Definition matching (filt : MongoFilter) (docs : list ProductDoc) : list ProductDoc :=
  List.filter (matches filt) docs.

(** The store takes a filter whose patterns are all regular
    expressions. *)
Definition filter_accepted (filt : MongoFilter) : bool :=
  match f_or filt with
  | Some clauses => forallb (fun c => regex_valid (rc_regex c)) clauses
  | None => true
  end.

Definition invalid_regex : exn :=
  OperationFailure "Regular expression is invalid".

(** [find(filt)], read: the matching documents, or the store's refusal of
    the filter. *)
Definition find (filt : MongoFilter) (docs : list ProductDoc)
    : result (list ProductDoc) :=
  if filter_accepted filt then Ok (matching filt docs) else Raise invalid_regex.

(** The text parameter is one the store takes: absent, empty, or a
    regular expression. *)
Definition pattern_accepted (q : option string) : bool :=
  negb (truthy q) || regex_valid (default "" q).

(** [cursor.sort(field, direction)]: ascending for [1], descending for
    [-1]; ties keep the natural order. *)
Definition cursor_sort (field : string) (direction : Z)
    (docs : list ProductDoc) : list ProductDoc :=
  let key d := num_field field (product_fields d) in
  if direction <? 0
  then sort_by (fun a b => Qle_bool (key b) (key a)) docs
  else sort_by (fun a b => Qle_bool (key a) (key b)) docs.

Definition find_one_product (k : oid) (docs : list ProductDoc) : option ProductDoc :=
  List.find (fun d => bool_decide (product_oid d = k)) docs.

Definition find_one_cart (sid : string) (docs : list CartDoc) : option CartDoc :=
  List.find (fun d => String.eqb (cart_session_id d) sid) docs.

(** The effect of [update_one({"_id": k}, {"$set": {"items": its}})]:
    the first document with that key gets the new items. *)
Fixpoint update_one_items (k : oid) (its : list CartItem)
    (docs : list CartDoc) : list CartDoc :=
  match docs with
  | [] => []
  | d :: docs' =>
    if bool_decide (cart_oid d = k)
    then {| cart_oid := cart_oid d;
            cart_session_id := cart_session_id d;
            cart_items := its |} :: docs'
    else d :: update_one_items k its docs'
  end.

(** [update_one] on the collection ["cart"]: the update is encoded
    first, and nothing is written when that raises. *)
Definition update_one (k : oid) (its : list CartItem) (d : Database)
    : result Database :=
  if bson_encodable its
  then Ok {| product := product d; cart := update_one_items k its (cart d) |}
  else Raise too_large.

(** Modelled from the spec: [create_document] of the module [database],
    which is not part of the sources.  It is the store's
    [insert(collection, doc) -> key], here for the collection ["cart"]:
    the document is appended under a key the store generates and the key
    is returned as a string; on an unavailable store, and for a document
    the store cannot encode, the failure of the store propagates. *)
Definition create_document_cart (db : option Database) (payload : CartOut)
    : result (string * Database) :=
  match db with
  | None => Raise (Exception "Database not available")
  | Some d =>
    if bson_encodable (out_items payload) then
      let k := fresh_oid (map cart_oid (cart d)) in
      Ok (str k,
          {| product := product d;
             cart := cart d ++ [ {| cart_oid := k;
                                    cart_session_id := out_session_id payload;
                                    cart_items := out_items payload |} ] |})
    else Raise too_large
  end.

(** *** The handlers *)

(** [GET /api/products] *)
Definition list_products (db : option Database)
    (q category : option string) (min_price max_price : option Q)
    (featured : option bool) (sort : option string) (limit : Z)
    : result ProductList :=
  match db with
  | None => Ok {| pl_items := []; pl_total := 0 |}
  | Some d =>
    let filt := build_filter q category min_price max_price featured in
    cursor ← find filt (product d);
    let cursor :=
      if bool_decide (sort = Some "price_asc") then cursor_sort "price" 1 cursor
      else if bool_decide (sort = Some "price_desc") then cursor_sort "price" (-1) cursor
      else if bool_decide (sort = Some "rating_desc") then cursor_sort "rating" (-1) cursor
      else cursor in
    let items := map normalize_product (cursor_limit limit cursor) in
    Ok {| pl_items := items; pl_total := Z.of_nat (length items) |}
  end.

Definition not_found : exn := HTTPException 404 "Product not found".

(** [GET /api/products/{product_id}] *)
Definition get_product (db : option Database) (product_id : string)
    : result ProductOut :=
  match db with
  | None => Raise not_found
  | Some d =>
    let doc :=
      match ObjectId product_id with
      | Some k => find_one_product k (product d)
      | None => None
      end in
    match doc with
    | None => Raise not_found
    | Some doc => Ok (normalize_product doc)
    end
  end.

(** [GET /api/categories] *)
Definition get_categories (db : option Database) : result (list string) :=
  match db with
  | None => Ok fallback_categories
  | Some d =>
    Ok (distinct_order
          (distinct_values []
             (map (fun doc => category (product_fields doc)) (product d))))
  end.

(** [GET /api/cart/{session_id}] *)
Definition get_cart (db : option Database) (sid : string) : result CartOut :=
  match db with
  | None => Ok {| out_id := None; out_session_id := sid; out_items := [] |}
  | Some d =>
    match find_one_cart sid (cart d) with
    | None => Ok {| out_id := None; out_session_id := sid; out_items := [] |}
    | Some c => Ok (normalize_cart c)
    end
  end.

(** [POST /api/cart]: the returned dictionary and the store after the
    call. *)
Definition upsert_cart (db : option Database) (c : Cart)
    : result (CartOut * option Database) :=
  match db with
  | None => Ok (model_dump c, None)
  | Some d =>
    let payload := model_dump c in
    match find_one_cart (out_session_id payload) (cart d) with
    | Some existing =>
      d' ← update_one (cart_oid existing) (out_items payload) d;
      Ok ({| out_id := Some (str (cart_oid existing));
             out_session_id := cart_session_id existing;
             out_items := out_items payload |}, Some d')
    | None =>
      r ← create_document_cart db payload;
      Ok ({| out_id := Some (fst r);
             out_session_id := out_session_id payload;
             out_items := out_items payload |}, Some (snd r))
    end
  end.

(** The store after an upsert (unchanged if the call raised). *)
Definition db_after (db : option Database) (c : Cart) : option Database :=
  match upsert_cart db c with
  | Ok r => snd r
  | Raise _ => db
  end.

(** Lines 212-217 on their own: the cursor of [list_products] after the
    [if]/[elif] chain on [sort]. *)
Definition sorted_cursor (sort : option string)
    (cursor : list ProductDoc) : list ProductDoc :=
  if bool_decide (sort = Some "price_asc") then cursor_sort "price" 1 cursor
  else if bool_decide (sort = Some "price_desc") then cursor_sort "price" (-1) cursor
  else if bool_decide (sort = Some "rating_desc") then cursor_sort "rating" (-1) cursor
  else cursor.

(** Modelled from the spec: [create_document] of the module [database]
    for the collection ["product"], the store's
    [insert(collection, doc) -> key] as for ["cart"] above. *)
Definition create_document_product (db : option Database) (data : Product)
    : result (string * Database) :=
  match db with
  | None => Raise (Exception "Database not available")
  | Some d =>
    let k := fresh_oid (map product_oid (product d)) in
    Ok (str k,
        {| product := product d ++ [ {| product_oid := k; product_fields := data |} ];
           cart := cart d |})
  end.

(** The loop [for p in products: create_document("product", p)]; the
    handle [db] is the same object on every turn. *)
Definition create_products (db : option Database) (products : list Product)
    : result (option Database) :=
  foldl (fun acc p =>
           db' ← acc;
           r ← create_document_product db' p;
           Ok (Some (snd r)))
    (Ok db) products.

(** [seed_products], run at startup: the store after it. *)
Definition seed_products (db : option Database) : result (option Database) :=
  match db with
  | None => Ok None
  | Some d =>
    if Z.of_nat (length (product d)) =? 0
    then create_products db demo_products
    else Ok db
  end.

(** The store after a sequence of [POST /api/cart] requests. *)
Definition upserts (db : option Database) (carts : list Cart) : option Database :=
  foldl db_after db carts.

(** The parameters of a listing hold of a product: what [build_filter]
    asks of a document, read off lines 193-209. *)
Definition satisfies (q cat : option string)
    (min_price max_price : option Q) (featured0 : option bool) (p : Product) : Prop :=
  (forall s, q = Some s -> s <> "" ->
     regex_search s "i" (title p) = true \/
     regex_search s "i" (description p) = true \/
     exists t, t ∈ tags p /\ regex_search s "i" t = true) /\
  (forall c, cat = Some c -> c <> "" -> category p = c) /\
  (forall m, min_price = Some m -> (m <= price p)%Q) /\
  (forall m, max_price = Some m -> (price p <= m)%Q) /\
  (forall b, featured0 = Some b -> featured p = b).

(** Keys are unique within a collection. *)
Definition store_wf (d : Database) : Prop :=
  NoDup (map cart_oid (cart d)) /\ NoDup (map product_oid (product d)).

(** At most one cart document per session. *)
Definition one_cart_per_session (d : Database) : Prop :=
  NoDup (map cart_session_id (cart d)).

End Backend.

Arguments Build_ProductDoc {oid} _ _.
Arguments Build_CartDoc {oid} _ _ _.
Arguments Build_Database {oid} _ _.

(** ** A concrete store for the examples

    Keys are the 96-bit numbers of [bson.ObjectId], written as 24
    hexadecimal digits; the store numbers new documents upwards; the
    regular expressions of the examples are plain words, for which
    [$regex] with option ["i"] is a case-insensitive substring search. *)
Module Demo.

Definition hex_value (c : ascii) : option N :=
  let n := N_of_ascii c in
  if ((48 <=? n) && (n <=? 57))%N then Some (n - 48)%N
  else if ((97 <=? n) && (n <=? 102))%N then Some (n - 87)%N
  else if ((65 <=? n) && (n <=? 70))%N then Some (n - 55)%N
  else None.

Fixpoint parse_hex (acc : N) (s : string) : option N :=
  match s with
  | EmptyString => Some acc
  | String c s' =>
    match hex_value c with
    | Some v => parse_hex (16 * acc + v)%N s'
    | None => None
    end
  end.

Definition ObjectId (s : string) : option N :=
  if Nat.eqb (String.length s) 24 then parse_hex 0%N s else None.

Definition hex_digit (n : N) : ascii :=
  if (n <? 10)%N then ascii_of_N (n + 48) else ascii_of_N (n + 87).

Fixpoint to_hex (digits : nat) (n : N) (acc : string) : string :=
  match digits with
  | O => acc
  | S k => to_hex k (n / 16)%N (String (hex_digit (n mod 16)%N) acc)
  end.

Definition str (k : N) : string := to_hex 24 k "".

Definition fresh_oid (l : list N) : N := N.succ (foldr N.max 0%N l).

Definition lower (c : ascii) : ascii :=
  let n := N_of_ascii c in
  if ((65 <=? n) && (n <=? 90))%N then ascii_of_N (n + 32) else c.

Fixpoint lowercase (s : string) : string :=
  match s with
  | EmptyString => EmptyString
  | String c s' => String (lower c) (lowercase s')
  end.

Fixpoint contains (pat s : string) : bool :=
  String.prefix pat s ||
  match s with
  | EmptyString => false
  | String _ s' => contains pat s'
  end.

(** The patterns of the examples are plain words (letters, digits and
    spaces), which are regular expressions, and ["+"], which is none;
    the concrete store takes the plain words only. *)
Definition plain (c : ascii) : bool :=
  let n := N_of_ascii c in
  ((48 <=? n) && (n <=? 57) || (65 <=? n) && (n <=? 90) ||
   (97 <=? n) && (n <=? 122) || (n =? 32))%N.

Fixpoint regex_valid (pattern : string) : bool :=
  match pattern with
  | EmptyString => true
  | String c s' => plain c && regex_valid s'
  end.

Definition regex_search (pattern options subject : string) : bool :=
  regex_valid pattern &&
  (if String.eqb options "i" then contains (lowercase pattern) (lowercase subject)
   else contains pattern subject).

(** The concrete store returns distinct values in alphabetical order. *)
Definition distinct_order (l : list string) : list string :=
  sort_by String.leb l.

Definition mk (t d : string) (p : Q) (c : string) (r : Q) (f : bool)
    (tg : list string) : Product :=
  {| title := t; description := d; price := p; category := c; in_stock := true;
     image := ""; gallery := []; colors := []; materials := []; rating := r;
     featured := f; model_url := None; tags := tg |}.

(** The seeded catalogue (titles, prices, categories, ratings, featured
    flags and tags of [demo_products]). *)
Definition demo_products : list Product :=
  [ mk "Aether Chrono X1"
       "Premium titanium watch with sapphire crystal, neon lume, and quantum-precision movement."
       1299 "Watches" (49 # 10) true ["chrono"; "luxury"; "neon"];
    mk "Nebula Wallet Pro"
       "Slim carbon-fiber wallet with RFID shield and magnetic quick-access."
       189 "Wallets" (47 # 10) true ["rfid"; "slim"];
    mk "Flux Rings Set"
       "Stackable rings with iridescent finish and subtle lumen edge."
       129 "Jewelry" (46 # 10) false ["rings"; "iridescent"];
    mk "Spectra AR Shades"
       "Next-gen eyewear with polarized optics and AR-ready frame."
       349 "Eyewear" (45 # 10) true ["ar"; "polarized"];
    mk "Pulse Band S"
       "Holographic wearable with health telemetry and soft neon glow."
       499 "Wearables" (44 # 10) false ["health"; "wearable"];
    mk "Ion Dock +"
       "Minimal magnetic charger with soft white halo illumination."
       89 "Tech" (43 # 10) false ["charger"; "dock"] ].

Definition demo_db : Database :=
  Build_Database
    (imap (fun i p => Build_ProductDoc (N.of_nat (S i)) p) demo_products)
    [ Build_CartDoc 7%N "S" [ {| product_id := "p1"; quantity := 2 |} ] ].

Definition empty_db : Database := Build_Database (oid := N) [] [].

Definition cart_p1 : Cart :=
  {| session_id := "S"; items := [ {| product_id := "p1"; quantity := 2 |} ] |}.

Definition cart_p2 : Cart :=
  {| session_id := "S"; items := [ {| product_id := "p2"; quantity := 1 |} ] |}.

Definition cart_huge : Cart :=
  {| session_id := "S";
     items := [ {| product_id := "p2"; quantity := 2 ^ 63 |} ] |}.

End Demo.

(** ** Properties of the cursors and of the cart collection *)

Lemma sort_insert_length {A : Type} (le : A -> A -> bool) (x : A) (l : list A) :
  length (sort_insert le x l) = S (length l).
Proof.
  induction l as [|y l IH]; simpl; [reflexivity|].
  destruct (le x y); simpl; [reflexivity|]. now rewrite IH.
Qed.

Lemma sort_by_length {A : Type} (le : A -> A -> bool) (l : list A) :
  length (sort_by le l) = length l.
Proof.
  induction l as [|x l IH]; simpl; [reflexivity|].
  now rewrite sort_insert_length, IH.
Qed.

Lemma cursor_limit_length {A : Type} (n : Z) (l : list A) :
  1 <= n ->
  length (cursor_limit n l) = Nat.min (Z.to_nat n) (length l).
Proof.
  intros Hn. unfold cursor_limit.
  destruct (Z.eqb_spec n 0) as [->|_]; [lia|].
  rewrite length_take. f_equal. lia.
Qed.

Lemma cursor_limit_nil {A : Type} (n : Z) : cursor_limit n (@nil A) = [].
Proof. unfold cursor_limit. destruct (n =? 0); [reflexivity|apply take_nil]. Qed.

Lemma truthy_spec (o : option string) :
  truthy o = true <-> exists s, o = Some s /\ s <> "".
Proof.
  destruct o as [s|]; simpl.
  - destruct (String.eqb_spec s ""); simpl; split.
    + discriminate.
    + intros (s' & [= <-] & Hs). contradiction.
    + eauto.
    + reflexivity.
  - split; [discriminate|]. intros (s & Hs & _). discriminate.
Qed.

Section Properties.

Context {oid : Type} `{EqDecision oid}.
Variable ObjectId : string -> option oid.
Variable str : oid -> string.
Variable fresh_oid : list oid -> oid.
Hypothesis fresh_oid_fresh : forall l : list oid, fresh_oid l ∉ l.
Variable regex_search : string -> string -> string -> bool.
Variable regex_valid : string -> bool.
Hypothesis regex_search_valid :
  forall pattern options subject : string,
    regex_search pattern options subject = true -> regex_valid pattern = true.
Variable distinct_order : list string -> list string.
Hypothesis distinct_order_Permutation :
  forall l : list string, distinct_order l ≡ₚ l.

Implicit Types (d : Database (oid := oid)) (c : CartDoc (oid := oid)).
Implicit Types (docs : list (CartDoc (oid := oid))) (its : list CartItem).

Lemma find_one_cart_Some sid docs c :
  find_one_cart sid docs = Some c -> c ∈ docs /\ cart_session_id c = sid.
Proof.
  unfold find_one_cart. intros Hf. apply find_some in Hf as [Hin Heq].
  split; [now apply list_elem_of_In|now apply String.eqb_eq].
Qed.

Lemma find_one_cart_None sid docs :
  find_one_cart sid docs = None <->
  (forall c, c ∈ docs -> cart_session_id c <> sid).
Proof.
  unfold find_one_cart. split.
  - intros Hf c Hin Heq.
    apply list_elem_of_In in Hin.
    pose proof (find_none _ _ Hf c Hin) as Hn. simpl in Hn.
    apply String.eqb_neq in Hn. contradiction.
  - intros Hall. induction docs as [|x docs IH]; simpl; [reflexivity|].
    destruct (String.eqb_spec (cart_session_id x) sid) as [Heq|_].
    + exfalso. apply (Hall x); [left|exact Heq].
    + apply IH. intros c Hin. apply Hall. now right.
Qed.

Lemma find_one_cart_is_Some sid docs :
  (exists c, c ∈ docs /\ cart_session_id c = sid) ->
  exists c, find_one_cart sid docs = Some c.
Proof.
  intros (c & Hin & Heq).
  destruct (find_one_cart sid docs) as [c'|] eqn:Hf; [eauto|].
  exfalso. eapply find_one_cart_None; eauto.
Qed.

Lemma update_one_items_oids k its docs :
  map cart_oid (update_one_items k its docs) = map cart_oid docs.
Proof.
  induction docs as [|x docs IH]; simpl; [reflexivity|].
  case_bool_decide; simpl; [reflexivity|]. now rewrite IH.
Qed.

Lemma update_one_items_length k its docs :
  length (update_one_items k its docs) = length docs.
Proof.
  rewrite <- (length_map cart_oid), update_one_items_oids. apply length_map.
Qed.

Lemma update_one_items_twice k its docs :
  update_one_items k its (update_one_items k its docs) = update_one_items k its docs.
Proof.
  induction docs as [|x docs IH]; simpl; [reflexivity|].
  case_bool_decide as Hk; simpl.
  - rewrite bool_decide_true by exact Hk. reflexivity.
  - rewrite bool_decide_false by exact Hk. now rewrite IH.
Qed.

(** With unique keys, the update by the key of the session's cart is seen
    by the next lookup of the session. *)
Lemma find_one_cart_update sid its docs c :
  NoDup (map cart_oid docs) ->
  find_one_cart sid docs = Some c ->
  find_one_cart sid (update_one_items (cart_oid c) its docs) =
    Some (Build_CartDoc (cart_oid c) (cart_session_id c) its).
Proof.
  induction docs as [|x docs IH]; simpl; [discriminate|].
  intros Hnd Hf. apply NoDup_cons in Hnd as [Hx Hnd].
  destruct (String.eqb_spec (cart_session_id x) sid) as [Hs|Hs].
  - injection Hf as <-. rewrite bool_decide_true by reflexivity.
    simpl. rewrite (proj2 (String.eqb_eq _ _) Hs). reflexivity.
  - assert (Hne : cart_oid x <> cart_oid c).
    { intros Heq. apply Hx. rewrite Heq.
      apply list_elem_of_fmap_2. apply (find_one_cart_Some sid). exact Hf. }
    rewrite bool_decide_false by exact Hne. simpl.
    rewrite (proj2 (String.eqb_neq _ _) Hs). now apply IH.
Qed.

Lemma find_one_cart_app_new sid docs c :
  find_one_cart sid docs = None -> cart_session_id c = sid ->
  find_one_cart sid (docs ++ [c]) = Some c.
Proof.
  intros Hn Hs. unfold find_one_cart in *.
  induction docs as [|x docs IH]; simpl in *.
  - now rewrite (proj2 (String.eqb_eq _ _) Hs).
  - destruct (String.eqb (cart_session_id x) sid); [discriminate|]. now apply IH.
Qed.

Lemma update_one_items_app_new k its docs c :
  k ∉ map cart_oid docs -> cart_oid c = k ->
  update_one_items k its (docs ++ [c]) =
    docs ++ [Build_CartDoc (cart_oid c) (cart_session_id c) its].
Proof.
  intros Hk Hc. induction docs as [|x docs IH]; simpl in *.
  - now rewrite bool_decide_true by exact Hc.
  - apply not_elem_of_cons in Hk as [Hx Hk].
    rewrite bool_decide_false by congruence. now rewrite IH.
Qed.

(** *** The branches of [upsert_cart] *)

Lemma upsert_cart_too_large d (cart0 : Cart) :
  bson_encodable (items cart0) = false ->
  upsert_cart str fresh_oid (Some d) cart0 = Raise too_large.
Proof.
  intros He. unfold upsert_cart, update_one, create_document_cart. simpl.
  rewrite He. now destruct (find_one_cart (session_id cart0) (cart d)).
Qed.

Lemma db_after_too_large (db : option Database) (cart0 : Cart) :
  bson_encodable (items cart0) = false ->
  db_after str fresh_oid db cart0 = db.
Proof.
  intros He. destruct db as [d|]; [|reflexivity].
  unfold db_after. now rewrite upsert_cart_too_large.
Qed.

Lemma upsert_cart_existing d (cart0 : Cart) c :
  bson_encodable (items cart0) = true ->
  find_one_cart (session_id cart0) (cart d) = Some c ->
  upsert_cart str fresh_oid (Some d) cart0 =
    Ok ({| out_id := Some (str (cart_oid c));
           out_session_id := session_id cart0;
           out_items := items cart0 |},
        Some (Build_Database (product d)
                (update_one_items (cart_oid c) (items cart0) (cart d)))).
Proof.
  intros He Hf. unfold upsert_cart, update_one. simpl. rewrite Hf, He.
  apply find_one_cart_Some in Hf as [_ ->]. reflexivity.
Qed.

Lemma upsert_cart_new d (cart0 : Cart) :
  bson_encodable (items cart0) = true ->
  find_one_cart (session_id cart0) (cart d) = None ->
  upsert_cart str fresh_oid (Some d) cart0 =
    Ok ({| out_id := Some (str (fresh_oid (map cart_oid (cart d))));
           out_session_id := session_id cart0;
           out_items := items cart0 |},
        Some (Build_Database (product d)
                (cart d ++ [Build_CartDoc (fresh_oid (map cart_oid (cart d)))
                              (session_id cart0) (items cart0)]))).
Proof.
  intros He Hf. unfold upsert_cart, create_document_cart. simpl.
  rewrite Hf, He. reflexivity.
Qed.

(** What an upsert of items the store can encode does on an available
    store with unique keys: it returns the payload under an id, keeps
    keys unique and the products untouched, and leaves the session's
    lookup on a document with the payload's items, which is the earlier
    document of the session if there was one. *)
Lemma upsert_cart_spec d (cart0 : Cart) :
  bson_encodable (items cart0) = true ->
  store_wf d ->
  exists c' d',
    upsert_cart str fresh_oid (Some d) cart0 =
      Ok ({| out_id := Some (str (cart_oid c'));
             out_session_id := session_id cart0;
             out_items := items cart0 |}, Some d') /\
    store_wf d' /\
    find_one_cart (session_id cart0) (cart d') = Some c' /\
    cart_session_id c' = session_id cart0 /\
    cart_items c' = items cart0 /\
    (forall c, find_one_cart (session_id cart0) (cart d) = Some c ->
       cart_oid c' = cart_oid c /\ length (cart d') = length (cart d)).
Proof using fresh_oid_fresh.
  intros He [Hc Hp].
  destruct (find_one_cart (session_id cart0) (cart d)) as [c|] eqn:Hf.
  - eexists (Build_CartDoc (cart_oid c) (cart_session_id c) (items cart0)), _.
    split; [rewrite (upsert_cart_existing _ _ _ He Hf); reflexivity|]. simpl.
    split; [split; simpl; [now rewrite update_one_items_oids|exact Hp]|].
    split; [now apply find_one_cart_update|].
    split; [now apply find_one_cart_Some in Hf|].
    split; [reflexivity|].
    intros c0 [= <-]. split; [reflexivity|apply update_one_items_length].
  - eexists (Build_CartDoc _ (session_id cart0) (items cart0)), _.
    split; [rewrite (upsert_cart_new _ _ He Hf); reflexivity|]. simpl.
    split.
    { split; simpl; [|exact Hp]. rewrite map_app. simpl.
      apply NoDup_app. split; [exact Hc|]. split.
      - intros k Hk Hk'. apply list_elem_of_singleton in Hk'. subst k.
        now apply fresh_oid_fresh in Hk.
      - apply NoDup_singleton. }
    split; [now apply find_one_cart_app_new|].
    split; [reflexivity|]. split; [reflexivity|]. discriminate.
Qed.

(** A repeated upsert leaves the store as the first one left it. *)
Lemma upsert_cart_twice (db : option Database) (cart0 : Cart) :
  (forall d, db = Some d -> store_wf d) ->
  db_after str fresh_oid (db_after str fresh_oid db cart0) cart0 =
    db_after str fresh_oid db cart0.
Proof using fresh_oid_fresh.
  intros Hwf.
  destruct (bson_encodable (items cart0)) eqn:He;
    [|now rewrite !db_after_too_large].
  destruct db as [d|]; [|reflexivity].
  destruct (Hwf d eq_refl) as [Hc _].
  unfold db_after at 2 3.
  destruct (find_one_cart (session_id cart0) (cart d)) as [c|] eqn:Hf.
  - rewrite (upsert_cart_existing _ _ _ He Hf). simpl.
    unfold db_after.
    erewrite upsert_cart_existing
      by first [exact He
               |simpl; apply find_one_cart_update; [exact Hc|exact Hf]].
    simpl. now rewrite update_one_items_twice.
  - rewrite (upsert_cart_new _ _ He Hf). simpl.
    unfold db_after.
    erewrite upsert_cart_existing
      by first [exact He
               |simpl; apply find_one_cart_app_new; [exact Hf|reflexivity]].
    simpl. rewrite update_one_items_app_new; [reflexivity| |reflexivity].
    apply fresh_oid_fresh.
Qed.

(** An upsert keeps the keys unique and the products untouched, whether
    the store takes it or refuses it. *)
Lemma db_after_wf d (cart0 : Cart) :
  store_wf d ->
  exists d', db_after str fresh_oid (Some d) cart0 = Some d' /\ store_wf d' /\
    product d' = product d.
Proof using fresh_oid_fresh.
  intros Hwf. destruct (bson_encodable (items cart0)) eqn:He.
  - destruct (upsert_cart_spec d cart0 He Hwf) as (c' & d' & Hup & Hwf' & _).
    exists d'. unfold db_after. rewrite Hup. simpl. split; [reflexivity|].
    split; [exact Hwf'|].
    destruct (find_one_cart (session_id cart0) (cart d)) as [c|] eqn:Hf.
    + rewrite (upsert_cart_existing _ _ _ He Hf) in Hup.
      injection Hup as _ <-. reflexivity.
    + rewrite (upsert_cart_new _ _ He Hf) in Hup.
      injection Hup as _ <-. reflexivity.
  - exists d. rewrite db_after_too_large by exact He. auto.
Qed.

(** *** Lookups *)

Lemma get_cart_found d sid c :
  find_one_cart sid (cart d) = Some c ->
  get_cart str (Some d) sid =
    Ok {| out_id := Some (str (cart_oid c)); out_session_id := sid;
          out_items := cart_items c |}.
Proof.
  intros Hf. unfold get_cart. rewrite Hf. unfold normalize_cart.
  apply find_one_cart_Some in Hf as [_ ->]. reflexivity.
Qed.

Lemma get_cart_absent d sid :
  find_one_cart sid (cart d) = None ->
  get_cart str (Some d) sid =
    Ok {| out_id := None; out_session_id := sid; out_items := [] |}.
Proof. intros Hf. unfold get_cart. now rewrite Hf. Qed.

Lemma find_one_product_None (k : oid) (docs : list (ProductDoc (oid := oid))) :
  (forall doc, doc ∈ docs -> product_oid doc <> k) ->
  find_one_product k docs = None.
Proof.
  intros Hall. unfold find_one_product.
  induction docs as [|x docs IH]; simpl; [reflexivity|].
  rewrite bool_decide_false by (apply Hall; left).
  apply IH. intros doc Hin. apply Hall. now right.
Qed.

(** *** The filter *)

Lemma build_filter_price q category a b featured :
  f_price (build_filter q category (Some a) (Some b) featured) =
    Some {| gte := Some a; lte := Some b |}.
Proof.
  unfold build_filter.
  destruct (truthy q), (truthy category), featured; reflexivity.
Qed.

Lemma build_filter_or q category min_price max_price featured :
  f_or (build_filter q category min_price max_price featured) =
    if truthy q
    then Some [ {| rc_field := Title; rc_regex := default "" q; rc_options := "i" |};
                {| rc_field := Description; rc_regex := default "" q; rc_options := "i" |};
                {| rc_field := Tags; rc_regex := default "" q; rc_options := "i" |} ]
    else None.
Proof.
  unfold build_filter.
  destruct (truthy q), (truthy category), min_price, max_price, featured;
    reflexivity.
Qed.

Lemma build_filter_category q category min_price max_price featured :
  f_category (build_filter q category min_price max_price featured) =
    if truthy category then category else None.
Proof.
  unfold build_filter.
  destruct (truthy q), (truthy category), min_price, max_price, featured;
    reflexivity.
Qed.

Lemma price_holds_inverted (a b : Q) (p : Product) :
  (b < a)%Q -> price_holds {| gte := Some a; lte := Some b |} p = false.
Proof.
  intros Hlt. unfold price_holds. simpl.
  destruct (Qle_bool a (price p)) eqn:Ha; [|reflexivity].
  destruct (Qle_bool (price p) b) eqn:Hb; [|reflexivity].
  exfalso. apply Qle_bool_iff in Ha, Hb.
  apply (Qlt_not_le _ _ Hlt). now apply Qle_trans with (price p).
Qed.

Lemma matching_inverted_range q category a b featured
    (docs : list (ProductDoc (oid := oid))) :
  (b < a)%Q ->
  matching regex_search
    (build_filter q category (Some a) (Some b) featured) docs = [].
Proof.
  intros Hlt. unfold matching.
  induction docs as [|x docs IH]; simpl; [reflexivity|].
  unfold matches at 1. rewrite build_filter_price.
  rewrite price_holds_inverted by exact Hlt.
  rewrite andb_false_r. simpl. exact IH.
Qed.

Lemma cursor_sort_length field direction (docs : list (ProductDoc (oid := oid))) :
  length (cursor_sort field direction docs) = length docs.
Proof.
  unfold cursor_sort. destruct (direction <? 0); apply sort_by_length.
Qed.

Lemma cursor_sort_nil field direction :
  cursor_sort field direction (@nil (ProductDoc (oid := oid))) = [].
Proof. unfold cursor_sort. now destruct (direction <? 0). Qed.

Lemma filter_accepted_build_filter q category min_price max_price featured :
  filter_accepted regex_valid
    (build_filter q category min_price max_price featured) =
  pattern_accepted regex_valid q.
Proof.
  unfold filter_accepted, pattern_accepted. rewrite build_filter_or.
  destruct (truthy q); simpl; [|reflexivity].
  now destruct (regex_valid (default "" q)).
Qed.

Lemma sorted_cursor_length sort (docs : list (ProductDoc (oid := oid))) :
  length (sorted_cursor sort docs) = length docs.
Proof.
  unfold sorted_cursor.
  repeat case_bool_decide; try apply cursor_sort_length. reflexivity.
Qed.

Lemma sorted_cursor_nil sort :
  sorted_cursor sort (@nil (ProductDoc (oid := oid))) = [].
Proof.
  unfold sorted_cursor.
  repeat case_bool_decide; try apply cursor_sort_nil. reflexivity.
Qed.

(** [list_products] on an available store: the store's refusal of the
    pattern, or the listing of the matching documents. *)
Lemma list_products_available d q category min_price max_price featured sort limit :
  list_products str regex_search regex_valid (Some d) q category min_price
    max_price featured sort limit =
  if pattern_accepted regex_valid q then
    Ok {| pl_items :=
            map (normalize_product str)
              (cursor_limit limit
                 (sorted_cursor sort
                    (matching regex_search
                       (build_filter q category min_price max_price featured)
                       (product d))));
          pl_total :=
            Z.of_nat (length
              (map (normalize_product str)
                 (cursor_limit limit
                    (sorted_cursor sort
                       (matching regex_search
                          (build_filter q category min_price max_price featured)
                          (product d)))))) |}
  else Raise invalid_regex.
Proof.
  unfold list_products, find. rewrite filter_accepted_build_filter.
  now destruct (pattern_accepted regex_valid q).
Qed.

(** ** The statements of the specification *)

(** C1, as the code has it. [upsert_cart] is a full replace for items the
    store can encode (every quantity within 8 bytes). On a store with
    unique keys, for a session whose cart [get_cart] finds under the id
    [i], the upsert of such items returns them under the same id [i],
    the cart read back afterwards holds exactly them under [i], and no
    document is added. In particular, whatever the store held, upserting
    [its1] and then such [its2] for one session leaves the session's cart
    with exactly [its2] (for [its1] the single item p1 and [its2] the
    single item p2: exactly p2). *)
Theorem upsert_cart_full_replace d :
  store_wf d ->
  (forall (cart0 : Cart) (old : CartOut) (i : string),
     bson_encodable (items cart0) = true ->
     get_cart str (Some d) (session_id cart0) = Ok old ->
     out_id old = Some i ->
     exists d',
       upsert_cart str fresh_oid (Some d) cart0 =
         Ok ({| out_id := Some i; out_session_id := session_id cart0;
                out_items := items cart0 |}, Some d') /\
       get_cart str (Some d') (session_id cart0) =
         Ok {| out_id := Some i; out_session_id := session_id cart0;
               out_items := items cart0 |} /\
       length (cart d') = length (cart d)) /\
  (forall (sid : string) (its1 its2 : list CartItem),
     bson_encodable its2 = true ->
     exists i,
       get_cart str
         (db_after str fresh_oid
            (db_after str fresh_oid (Some d)
               {| session_id := sid; items := its1 |})
            {| session_id := sid; items := its2 |}) sid =
         Ok {| out_id := Some i; out_session_id := sid; out_items := its2 |}).
Proof using fresh_oid_fresh.
  intros Hwf. split.
  - intros cart0 old i He Hget Hid.
    destruct (find_one_cart (session_id cart0) (cart d)) as [c|] eqn:Hf.
    + rewrite (get_cart_found _ _ _ Hf) in Hget. injection Hget as <-.
      simpl in Hid. injection Hid as <-.
      destruct (upsert_cart_spec d cart0 He Hwf)
        as (c' & d' & Hup & _ & Hf' & _ & Hits & Hsame).
      destruct (Hsame c Hf) as [Hoid Hlen].
      exists d'. rewrite Hup, (get_cart_found _ _ _ Hf'), Hoid, Hits.
      repeat split. exact Hlen.
    + rewrite (get_cart_absent _ _ Hf) in Hget. injection Hget as <-.
      discriminate Hid.
  - intros sid its1 its2 He2.
    destruct (db_after_wf d {| session_id := sid; items := its1 |} Hwf)
      as (d1 & Hup1 & Hwf1 & _).
    destruct (upsert_cart_spec d1 {| session_id := sid; items := its2 |}
                He2 Hwf1)
      as (c2 & d2 & Hup2 & _ & Hf2 & _ & Hits2 & _).
    rewrite Hup1. unfold db_after. rewrite Hup2. cbn [snd].
    cbn [session_id items] in Hf2, Hits2.
    exists (str (cart_oid c2)).
    now rewrite (get_cart_found _ _ _ Hf2), Hits2.
Qed.

(** C2, as the code has it. For a limit in [1,200], a text parameter the
    store takes (absent, empty or a regular expression) and any other
    parameters, [list_products] returns at most [limit] items, [total] is
    the number of items returned, and on an available store that number
    is the smaller of [limit] and the number of matches, not the number
    of matches. *)
Theorem list_products_limit_total (db : option Database)
    (q category : option string) (min_price max_price : option Q)
    (featured : option bool) (sort : option string) (limit : Z) :
  1 <= limit <= 200 ->
  pattern_accepted regex_valid q = true ->
  exists r,
    list_products str regex_search regex_valid db q category min_price
      max_price featured sort limit = Ok r /\
    Z.of_nat (length (pl_items r)) <= limit /\
    pl_total r = Z.of_nat (length (pl_items r)) /\
    (forall d, db = Some d ->
       pl_total r =
         Z.min limit
           (Z.of_nat (length (matching regex_search
              (build_filter q category min_price max_price featured)
              (product d))))).
Proof.
  intros Hl Hq. destruct db as [d|].
  - rewrite list_products_available, Hq.
    eexists. split; [reflexivity|]. simpl.
    set (found := matching regex_search _ (product d)).
    rewrite length_map, cursor_limit_length, sorted_cursor_length by lia.
    split; [lia|]. split; [reflexivity|].
    intros d0 [= <-]. fold found. lia.
  - exists {| pl_items := []; pl_total := 0 |}. simpl.
    split; [reflexivity|]. split; [lia|]. split; [reflexivity|]. discriminate.
Qed.

(** C3, as the code has it. On an unavailable store [upsert_cart] does not
    attempt the write and raises nothing: it returns the submitted
    payload as it is, without an id, and the store stays unavailable. *)
Theorem upsert_cart_unavailable (cart0 : Cart) :
  upsert_cart str fresh_oid None cart0 =
    Ok ({| out_id := None; out_session_id := session_id cart0;
           out_items := items cart0 |}, None) /\
  ~ raises (upsert_cart str fresh_oid None cart0).
Proof.
  split; [reflexivity|]. intros [e He]. discriminate He.
Qed.

(** C4. On an unavailable store [get_categories] returns the fixed list of
    six category names, not an error. *)
Theorem get_categories_fallback :
  get_categories (oid := oid) distinct_order None =
    Ok ["Watches"; "Wearables"; "Tech"; "Wallets"; "Jewelry"; "Eyewear"] /\
  length fallback_categories = 6%nat.
Proof. split; reflexivity. Qed.

(** C5, as the code has it. With both price bounds given,
    [min_price > max_price] and a text parameter the store takes (absent,
    empty or a regular expression), [list_products] returns no items and
    total 0, whatever the store and the other parameters. *)
Theorem list_products_inverted_range (db : option Database)
    (q category : option string) (a b : Q)
    (featured : option bool) (sort : option string) (limit : Z) :
  pattern_accepted regex_valid q = true ->
  (b < a)%Q ->
  list_products str regex_search regex_valid db q category (Some a) (Some b)
    featured sort limit = Ok {| pl_items := []; pl_total := 0 |}.
Proof.
  intros Hq Hlt. destruct db as [d|]; [|reflexivity].
  rewrite list_products_available, Hq.
  rewrite matching_inverted_range by exact Hlt.
  now rewrite sorted_cursor_nil, cursor_limit_nil.
Qed.

(** C6. [get_product] raises the same 404 "Product not found" for a string
    that is not an object id and for an object id that no stored product
    has. *)
Theorem get_product_not_found (db : option Database) (pid : string) :
  ObjectId pid = None \/
  (exists k, ObjectId pid = Some k /\
     forall d doc, db = Some d -> doc ∈ product d -> product_oid doc <> k) ->
  get_product ObjectId str db pid =
    Raise (HTTPException 404 "Product not found").
Proof.
  intros Hpid. destruct db as [d|]; [|reflexivity].
  unfold get_product.
  destruct Hpid as [->|(k & -> & Hnone)]; [reflexivity|].
  rewrite find_one_product_None; [reflexivity|].
  intros doc Hin. now apply (Hnone d).
Qed.


(** C8. [get_cart] for a session without a stored cart returns the cart
    with the session id and no items, not an error; for a session with a
    stored cart it returns a stored cart of the session with the key
    exposed as id. *)
Theorem get_cart_zero_value_or_stored (db : option Database) (sid : string) :
  ((forall d c, db = Some d -> c ∈ cart d -> cart_session_id c <> sid) ->
   get_cart str db sid =
     Ok {| out_id := None; out_session_id := sid; out_items := [] |}) /\
  ((exists d c, db = Some d /\ c ∈ cart d /\ cart_session_id c = sid) ->
   exists d c, db = Some d /\ c ∈ cart d /\ cart_session_id c = sid /\
     get_cart str db sid =
       Ok {| out_id := Some (str (cart_oid c)); out_session_id := sid;
             out_items := cart_items c |}).
Proof.
  split.
  - intros Hnone. destruct db as [d|]; [|reflexivity].
    apply get_cart_absent, find_one_cart_None. intros c. now apply Hnone.
  - intros (d & c & -> & Hin & Hs).
    destruct (find_one_cart_is_Some sid (cart d)) as [c' Hf]; [eauto|].
    exists d, c'. split; [reflexivity|].
    destruct (find_one_cart_Some _ _ _ Hf) as [Hin' Hs'].
    repeat split; [exact Hin'|exact Hs'|]. now apply get_cart_found.
Qed.

(** C9. [upsert_cart] is idempotent. With unique keys in the store, the
    second of two identical upserts leaves the store, and so the cart
    read for the session, as the first left them, for every session and
    every items list; when the store can encode the items, the cart read
    on an available store holds them, and both calls return them. *)
Theorem upsert_cart_idempotent (db : option Database) (cart0 : Cart) :
  (forall d, db = Some d -> store_wf d) ->
  let db1 := db_after str fresh_oid db cart0 in
  let db2 := db_after str fresh_oid db1 cart0 in
  db2 = db1 /\
  get_cart str db2 (session_id cart0) = get_cart str db1 (session_id cart0) /\
  (bson_encodable (items cart0) = true ->
   (forall d, db = Some d ->
      exists i, get_cart str db1 (session_id cart0) =
        Ok {| out_id := Some i; out_session_id := session_id cart0;
              out_items := items cart0 |}) /\
   (exists r1 r2,
      upsert_cart str fresh_oid db cart0 = Ok r1 /\
      upsert_cart str fresh_oid db1 cart0 = Ok r2 /\
      out_items (fst r1) = items cart0 /\ out_items (fst r2) = items cart0)).
Proof using fresh_oid_fresh.
  intros Hwf db1 db2.
  assert (Heq : db2 = db1) by (apply upsert_cart_twice; exact Hwf).
  split; [exact Heq|]. split; [now rewrite Heq|].
  intros He. destruct db as [d|].
  - destruct (upsert_cart_spec d cart0 He (Hwf d eq_refl))
      as (c1 & d1 & Hup1 & Hwf1 & Hf1 & _ & Hits1 & _).
    assert (Hdb1 : db1 = Some d1) by (unfold db1, db_after; now rewrite Hup1).
    destruct (upsert_cart_spec d1 cart0 He Hwf1) as (c2 & d2 & Hup2 & _).
    split.
    + intros d0 _. exists (str (cart_oid c1)).
      now rewrite Hdb1, (get_cart_found _ _ _ Hf1), Hits1.
    + rewrite Hdb1, Hup1, Hup2. do 2 eexists.
      split; [reflexivity|]. split; [reflexivity|]. split; reflexivity.
  - split; [discriminate|]. unfold db1. simpl. do 2 eexists.
    split; [reflexivity|]. split; [reflexivity|]. split; reflexivity.
Qed.

(** C10. An empty string for [q] or for [category] is treated as the
    absent parameter: the request gives the same result, and the filter
    has a text entry (a category entry) exactly when [q] ([category]) is a
    non-empty string. *)
Theorem list_products_empty_string_absent (db : option Database)
    (q category : option string) (min_price max_price : option Q)
    (featured : option bool) (sort : option string) (limit : Z) :
  list_products str regex_search regex_valid db (Some "") category
    min_price max_price featured sort limit =
  list_products str regex_search regex_valid db None category
    min_price max_price featured sort limit /\
  list_products str regex_search regex_valid db q (Some "")
    min_price max_price featured sort limit =
  list_products str regex_search regex_valid db q None
    min_price max_price featured sort limit /\
  (f_or (build_filter q category min_price max_price featured) <> None <->
   exists s, q = Some s /\ s <> "") /\
  (f_category (build_filter q category min_price max_price featured) <> None <->
   exists s, category = Some s /\ s <> "").
Proof.
  split; [reflexivity|]. split.
  - destruct db as [d|]; [|reflexivity]. unfold list_products.
    assert (Hf : build_filter q (Some "") min_price max_price featured =
                 build_filter q None min_price max_price featured)
      by reflexivity.
    now rewrite Hf.
  - rewrite build_filter_or, build_filter_category, <- !truthy_spec.
    split.
    + destruct (truthy q); split; congruence.
    + destruct category as [s|]; simpl; [|split; congruence].
      destruct (negb (String.eqb s "")); split; congruence.
Qed.

(** ** Further properties of the handlers *)

(** *** Sorting *)

Lemma sort_insert_Permutation {A : Type} (le : A -> A -> bool) (x : A) (l : list A) :
  sort_insert le x l ≡ₚ x :: l.
Proof.
  induction l as [|y l IH]; simpl; [reflexivity|].
  destruct (le x y); [reflexivity|].
  rewrite IH. apply Permutation_swap.
Qed.

Lemma sort_by_Permutation {A : Type} (le : A -> A -> bool) (l : list A) :
  sort_by le l ≡ₚ l.
Proof.
  induction l as [|x l IH]; simpl; [reflexivity|].
  now rewrite sort_insert_Permutation, IH.
Qed.

Lemma sort_insert_sorted {A : Type} (le : A -> A -> bool) (x : A) (l : list A) :
  (forall a b, le a b = false -> le b a = true) ->
  (forall u v w, le u v = true -> le v w = true -> le u w = true) ->
  StronglySorted (fun a b => le a b = true) l ->
  StronglySorted (fun a b => le a b = true) (sort_insert le x l).
Proof.
  intros Htot Htrans. induction l as [|y l IH]; intros Hs; simpl.
  - repeat constructor.
  - apply StronglySorted_inv in Hs as [Hl Hy].
    destruct (le x y) eqn:Hxy.
    + constructor; [now constructor|].
      constructor; [exact Hxy|].
      eapply Forall_impl; [exact Hy|]. intros z Hz. now apply Htrans with y.
    + constructor; [now apply IH|].
      rewrite sort_insert_Permutation. constructor; [now apply Htot|exact Hy].
Qed.

Lemma sort_by_sorted {A : Type} (le : A -> A -> bool) (l : list A) :
  (forall a b, le a b = false -> le b a = true) ->
  (forall u v w, le u v = true -> le v w = true -> le u w = true) ->
  StronglySorted (fun a b => le a b = true) (sort_by le l).
Proof.
  intros Htot Htrans. induction l as [|x l IH]; simpl; [constructor|].
  now apply sort_insert_sorted.
Qed.

Lemma StronglySorted_take {A : Type} (R : A -> A -> Prop) (n : nat) (l : list A) :
  StronglySorted R l -> StronglySorted R (take n l).
Proof.
  intros Hs. revert n. induction Hs as [|x l Hs IH Hx]; intros [|n]; simpl;
    try constructor; [apply IH|].
  apply Forall_forall. intros y Hy.
  apply (proj1 (Forall_forall _ _) Hx). eapply subseteq_take. exact Hy.
Qed.

Lemma Qle_bool_total (x y : Q) : Qle_bool x y = false -> Qle_bool y x = true.
Proof.
  intros Hf. apply Qle_bool_iff. apply Qlt_le_weak, Qnot_le_lt.
  intros Hle. apply Qle_bool_iff in Hle. congruence.
Qed.

Lemma Qle_bool_trans (x y z : Q) :
  Qle_bool x y = true -> Qle_bool y z = true -> Qle_bool x z = true.
Proof.
  rewrite !Qle_bool_iff. apply Qle_trans.
Qed.

Lemma cursor_limit_take {A : Type} (n : Z) (l : list A) :
  1 <= n -> cursor_limit n l = take (Z.to_nat n) l.
Proof.
  intros Hn. unfold cursor_limit.
  destruct (Z.eqb_spec n 0); [lia|]. f_equal. lia.
Qed.

Lemma cursor_sort_Permutation field direction
    (docs : list (ProductDoc (oid := oid))) :
  cursor_sort field direction docs ≡ₚ docs.
Proof.
  unfold cursor_sort. destruct (direction <? 0); apply sort_by_Permutation.
Qed.

Lemma sorted_cursor_Permutation sort (docs : list (ProductDoc (oid := oid))) :
  sorted_cursor sort docs ≡ₚ docs.
Proof.
  unfold sorted_cursor.
  repeat case_bool_decide; try apply cursor_sort_Permutation. reflexivity.
Qed.

Lemma cursor_limit_subseteq {A : Type} (n : Z) (l : list A) :
  cursor_limit n l ⊆ l.
Proof.
  unfold cursor_limit. destruct (n =? 0); [reflexivity|apply subseteq_take].
Qed.

(** *** What the filter asks of a document *)

Lemma build_filter_price_gen q category min_price max_price featured :
  f_price (build_filter q category min_price max_price featured) =
    match min_price, max_price with
    | None, None => None
    | _, _ => Some {| gte := min_price; lte := max_price |}
    end.
Proof.
  unfold build_filter.
  destruct (truthy q), (truthy category), min_price, max_price, featured;
    reflexivity.
Qed.

Lemma build_filter_featured q category min_price max_price featured :
  f_featured (build_filter q category min_price max_price featured) = featured.
Proof.
  unfold build_filter.
  destruct (truthy q), (truthy category), min_price, max_price, featured;
    reflexivity.
Qed.

Lemma existsb_elem_of {A : Type} (f : A -> bool) (l : list A) :
  existsb f l = true <-> exists x, x ∈ l /\ f x = true.
Proof.
  rewrite existsb_exists. split; intros (x & Hin & Hx); exists x;
    (split; [now apply list_elem_of_In|exact Hx]).
Qed.

Lemma text_entry_holds q (p : Product) :
  match (if truthy q
         then Some [ {| rc_field := Title; rc_regex := default "" q; rc_options := "i" |};
                     {| rc_field := Description; rc_regex := default "" q; rc_options := "i" |};
                     {| rc_field := Tags; rc_regex := default "" q; rc_options := "i" |} ]
         else None) with
  | Some clauses => existsb (clause_holds regex_search p) clauses
  | None => true
  end = true <->
  (forall s, q = Some s -> s <> "" ->
     regex_search s "i" (title p) = true \/
     regex_search s "i" (description p) = true \/
     exists t, t ∈ tags p /\ regex_search s "i" t = true).
Proof.
  clear ObjectId str fresh_oid fresh_oid_fresh regex_search_valid regex_valid
    distinct_order_Permutation distinct_order.
  destruct (truthy q) eqn:Ht.
  - apply truthy_spec in Ht as (s & -> & Hs). simpl.
    unfold clause_holds. simpl.
    rewrite !orb_true_iff, existsb_elem_of. split.
    + intros Hm s' [= <-] _.
      destruct Hm as [Hm|[Hm|[Hm|Hm]]]; [tauto|tauto|tauto|discriminate].
    + intros Hm. specialize (Hm s eq_refl Hs). tauto.
  - split; [|reflexivity]. intros _ s -> Hs.
    assert (truthy (Some s) = true) by (apply truthy_spec; eauto).
    congruence.
Qed.

Lemma category_entry_holds cat (p : Product) :
  match (if truthy cat then cat else None) with
  | Some c => String.eqb (category p) c
  | None => true
  end = true <->
  (forall v : string, cat = Some v -> v <> "" -> category p = v).
Proof.
  destruct (truthy cat) eqn:Ht.
  - apply truthy_spec in Ht as (v & -> & Hv). rewrite String.eqb_eq. split.
    + intros Hm v' [= <-] _. exact Hm.
    + intros Hm. now apply Hm.
  - split; [|reflexivity]. intros _ v -> Hv.
    assert (truthy (Some v) = true) by (apply truthy_spec; eauto).
    congruence.
Qed.

Lemma price_entry_holds (min_price max_price : option Q) (p : Product) :
  match (match min_price, max_price with
         | None, None => None
         | _, _ => Some {| gte := min_price; lte := max_price |}
         end) with
  | Some pc => price_holds pc p
  | None => true
  end = true <->
  (forall m, min_price = Some m -> (m <= price p)%Q) /\
  (forall m, max_price = Some m -> (price p <= m)%Q).
Proof.
  clear ObjectId str fresh_oid fresh_oid_fresh regex_search_valid regex_search
    regex_valid distinct_order_Permutation distinct_order.
  unfold price_holds.
  destruct min_price as [a|], max_price as [b|]; simpl;
    rewrite ?andb_true_iff, ?andb_true_r, ?Qle_bool_iff; split;
    try (intros [Ha Hb]); try intros Ha; repeat split;
    try (intros m [= <-]); try discriminate; try tauto; auto.
Qed.

Lemma featured_entry_holds (featured0 : option bool) (p : Product) :
  match featured0 with
  | Some b => Bool.eqb (featured p) b
  | None => true
  end = true <->
  (forall b, featured0 = Some b -> featured p = b).
Proof.
  destruct featured0 as [b|]; [|split; [discriminate|reflexivity]].
  rewrite Bool.eqb_true_iff. split.
  - intros Hm b' [= <-]. exact Hm.
  - intros Hm. now apply Hm.
Qed.

Lemma matches_satisfies q cat min_price max_price featured0
    (doc : ProductDoc (oid := oid)) :
  matches regex_search (build_filter q cat min_price max_price featured0) doc
    = true <->
  satisfies regex_search q cat min_price max_price featured0
    (product_fields doc).
Proof.
  clear ObjectId str fresh_oid fresh_oid_fresh regex_search_valid regex_valid
    distinct_order_Permutation distinct_order.
  unfold matches, satisfies.
  rewrite build_filter_or, build_filter_category, build_filter_price_gen,
    build_filter_featured.
  rewrite !andb_true_iff, text_entry_holds, category_entry_holds,
    price_entry_holds, featured_entry_holds.
  tauto.
Qed.

Lemma elem_of_matching q cat min_price max_price featured0
    (docs : list (ProductDoc (oid := oid))) doc :
  doc ∈ matching regex_search (build_filter q cat min_price max_price featured0) docs <->
  doc ∈ docs /\
  satisfies regex_search q cat min_price max_price featured0 (product_fields doc).
Proof.
  unfold matching. rewrite list_elem_of_In, filter_In, <- list_elem_of_In.
  now rewrite matches_satisfies.
Qed.

(** *** Listings *)

(** X1. Every item of a listing is a stored product that the request's
    parameters hold of, with its key printed as [id] and its fields
    untouched. *)
Theorem list_products_sound d q cat min_price max_price featured0 sort limit
    (r : ProductList) (o : ProductOut) :
  list_products str regex_search regex_valid (Some d) q cat min_price max_price
    featured0 sort limit = Ok r ->
  o ∈ pl_items r ->
  exists doc,
    doc ∈ product d /\
    id o = str (product_oid doc) /\
    fields o = product_fields doc /\
    satisfies regex_search q cat min_price max_price featured0 (fields o).
Proof.
  rewrite list_products_available.
  destruct (pattern_accepted regex_valid q); [|discriminate].
  intros [= <-] Ho. simpl in Ho.
  apply list_elem_of_fmap in Ho as (doc & -> & Hdoc).
  apply cursor_limit_subseteq in Hdoc.
  rewrite sorted_cursor_Permutation in Hdoc.
  apply elem_of_matching in Hdoc as [Hin Hsat].
  exists doc. repeat split; try assumption; apply Hsat.
Qed.

Lemma satisfies_pattern_accepted q cat min_price max_price featured0
    (p : Product) :
  satisfies regex_search q cat min_price max_price featured0 p ->
  pattern_accepted regex_valid q = true.
Proof using regex_search_valid.
  intros [Hq _]. unfold pattern_accepted.
  destruct (truthy q) eqn:Ht; [|reflexivity]. simpl.
  apply truthy_spec in Ht as (s & -> & Hs). simpl.
  destruct (Hq s eq_refl Hs) as [Hm|[Hm|(t & _ & Hm)]];
    exact (regex_search_valid _ _ _ Hm).
Qed.

(** X2. When the limit is at least the number of matches, every stored
    product that the parameters hold of is in the listing, whatever the
    sort. *)
Theorem list_products_complete d q cat min_price max_price featured0 sort limit
    (doc : ProductDoc) :
  1 <= limit ->
  Z.of_nat (length (matching regex_search
              (build_filter q cat min_price max_price featured0) (product d)))
    <= limit ->
  doc ∈ product d ->
  satisfies regex_search q cat min_price max_price featured0 (product_fields doc) ->
  exists r,
    list_products str regex_search regex_valid (Some d) q cat min_price max_price
      featured0 sort limit = Ok r /\
    normalize_product str doc ∈ pl_items r.
Proof using regex_search_valid.
  intros Hl Hlen Hin Hsat. rewrite list_products_available.
  rewrite (satisfies_pattern_accepted _ _ _ _ _ _ Hsat).
  eexists. split; [reflexivity|]. simpl.
  apply list_elem_of_fmap_2.
  rewrite cursor_limit_take by exact Hl.
  rewrite take_ge.
  - rewrite sorted_cursor_Permutation. apply elem_of_matching. now split.
  - rewrite (Permutation_length (sorted_cursor_Permutation _ _)). lia.
Qed.

Lemma cursor_limit_sorted {A : Type} (R : A -> A -> Prop) (n : Z) (l : list A) :
  StronglySorted R l -> StronglySorted R (cursor_limit n l).
Proof.
  intros Hs. unfold cursor_limit.
  destruct (n =? 0); [exact Hs|now apply StronglySorted_take].
Qed.

Lemma StronglySorted_weaken {A : Type} (R1 R2 : A -> A -> Prop) (l : list A) :
  (forall x y, R1 x y -> R2 x y) ->
  StronglySorted R1 l -> StronglySorted R2 l.
Proof.
  intros HR Hs. induction Hs as [|x l Hs IH Hx]; constructor; [exact IH|].
  eapply Forall_impl; [exact Hx|]. intros y. apply HR.
Qed.

Lemma cursor_sort_sorted field direction (docs : list (ProductDoc (oid := oid))) :
  StronglySorted
    (fun x y =>
       if direction <? 0
       then (num_field field (product_fields y) <=
             num_field field (product_fields x))%Q
       else (num_field field (product_fields x) <=
             num_field field (product_fields y))%Q)
    (cursor_sort field direction docs).
Proof.
  unfold cursor_sort. destruct (direction <? 0);
    (eapply StronglySorted_weaken;
     [|apply sort_by_sorted;
       [intros u v; apply Qle_bool_total
       |intros u v w H1 H2;
        first [exact (Qle_bool_trans _ _ _ H1 H2)
              |exact (Qle_bool_trans _ _ _ H2 H1)]]]);
    intros u v Huv; now apply Qle_bool_iff in Huv.
Qed.

Lemma cursor_limit_is_take {A : Type} (n : Z) (l : list A) :
  exists k, cursor_limit n l = take k l.
Proof.
  unfold cursor_limit. destruct (n =? 0); [|eauto].
  exists (length l). now rewrite take_ge.
Qed.

Lemma sorted_take_before_drop {A : Type} (R : A -> A -> Prop) (k : nat)
    (l : list A) (x y : A) :
  StronglySorted R l -> x ∈ take k l -> y ∈ drop k l -> R x y.
Proof.
  intros Hs. revert k. induction Hs as [|a l Hs IH Ha]; intros k Hx Hy.
  - rewrite take_nil in Hx. now apply not_elem_of_nil in Hx.
  - destruct k as [|k]; simpl in Hx, Hy.
    + now apply not_elem_of_nil in Hx.
    + apply elem_of_cons in Hx as [->|Hx]; [|now apply (IH k)].
      apply (proj1 (Forall_forall _ _) Ha).
      eapply subseteq_drop. exact Hy.
Qed.

(** A sorted cursor cut by the limit: what is kept is sorted, and comes
    before whatever is left out. *)
Lemma limit_of_sorted
    (R : ProductDoc (oid := oid) -> ProductDoc (oid := oid) -> Prop) (limit : Z)
    (cursor : list (ProductDoc (oid := oid))) :
  StronglySorted R cursor ->
  StronglySorted R (cursor_limit limit cursor) /\
  forall x y, x ∈ cursor_limit limit cursor -> y ∈ cursor ->
    y ∉ cursor_limit limit cursor -> R x y.
Proof.
  intros Hs. split; [now apply cursor_limit_sorted|].
  destruct (cursor_limit_is_take limit cursor) as [k ->].
  intros x y Hx Hy Hny. apply (sorted_take_before_drop R k cursor); trivial.
  rewrite <- (take_drop k cursor) in Hy.
  apply elem_of_app in Hy as [Hy|Hy]; [contradiction|exact Hy].
Qed.

(** The listing for a known sort value: its items are in the order of
    the sort, and every match left out by the limit comes after every
    item in that order. *)
Lemma listing_in_order d q cat min_price max_price featured0 limit
    (sort field : string) (direction : Z)
    (R : Product -> Product -> Prop) :
  sorted_cursor (Some sort)
    (matching regex_search
       (build_filter q cat min_price max_price featured0) (product d)) =
  cursor_sort field direction
    (matching regex_search
       (build_filter q cat min_price max_price featured0) (product d)) ->
  (forall x y : ProductDoc (oid := oid),
     (if direction <? 0
      then (num_field field (product_fields y) <=
            num_field field (product_fields x))%Q
      else (num_field field (product_fields x) <=
            num_field field (product_fields y))%Q) ->
     R (product_fields x) (product_fields y)) ->
  pattern_accepted regex_valid q = true ->
  exists r,
    list_products str regex_search regex_valid (Some d) q cat min_price
      max_price featured0 (Some sort) limit = Ok r /\
    StronglySorted (fun a b => R (fields a) (fields b)) (pl_items r) /\
    forall (doc : ProductDoc) (o : ProductOut),
      doc ∈ product d ->
      satisfies regex_search q cat min_price max_price featured0
        (product_fields doc) ->
      o ∈ pl_items r ->
      normalize_product str doc ∉ pl_items r ->
      R (fields o) (product_fields doc).
Proof.
  intros Hsort HR Hq. rewrite list_products_available, Hq, Hsort.
  eexists. split; [reflexivity|]. simpl.
  destruct (limit_of_sorted _ limit _
              (cursor_sort_sorted field direction
                 (matching regex_search
                    (build_filter q cat min_price max_price featured0)
                    (product d)))) as [Hs Hbefore].
  split.
  - eapply StronglySorted_fmap; [|exact Hs]. intros x y. apply HR.
  - intros doc o Hin Hsat Ho Hout.
    apply list_elem_of_fmap in Ho as (x & -> & Hx). simpl.
    apply HR, Hbefore; [exact Hx| |].
    + rewrite cursor_sort_Permutation. apply elem_of_matching. now split.
    + intros Hdoc. apply Hout. now apply list_elem_of_fmap_2.
Qed.

(** X3. The sort is applied before the limit. For a text parameter the
    store takes, a listing with [sort=price_asc] has non-decreasing
    prices and every match the limit leaves out costs at least as much as
    every item listed; likewise with [sort=price_desc] for non-increasing
    prices and with [sort=rating_desc] for non-increasing ratings. *)
Theorem list_products_sorted d (q cat : option string)
    (min_price max_price : option Q) (featured0 : option bool) (limit : Z) :
  pattern_accepted regex_valid q = true ->
  (exists r,
     list_products str regex_search regex_valid (Some d) q cat min_price
       max_price featured0 (Some "price_asc") limit = Ok r /\
     StronglySorted (fun a b => (price (fields a) <= price (fields b))%Q)
       (pl_items r) /\
     forall (doc : ProductDoc) (o : ProductOut),
       doc ∈ product d ->
       satisfies regex_search q cat min_price max_price featured0
         (product_fields doc) ->
       o ∈ pl_items r ->
       normalize_product str doc ∉ pl_items r ->
       (price (fields o) <= price (product_fields doc))%Q) /\
  (exists r,
     list_products str regex_search regex_valid (Some d) q cat min_price
       max_price featured0 (Some "price_desc") limit = Ok r /\
     StronglySorted (fun a b => (price (fields b) <= price (fields a))%Q)
       (pl_items r) /\
     forall (doc : ProductDoc) (o : ProductOut),
       doc ∈ product d ->
       satisfies regex_search q cat min_price max_price featured0
         (product_fields doc) ->
       o ∈ pl_items r ->
       normalize_product str doc ∉ pl_items r ->
       (price (product_fields doc) <= price (fields o))%Q) /\
  (exists r,
     list_products str regex_search regex_valid (Some d) q cat min_price
       max_price featured0 (Some "rating_desc") limit = Ok r /\
     StronglySorted (fun a b => (rating (fields b) <= rating (fields a))%Q)
       (pl_items r) /\
     forall (doc : ProductDoc) (o : ProductOut),
       doc ∈ product d ->
       satisfies regex_search q cat min_price max_price featured0
         (product_fields doc) ->
       o ∈ pl_items r ->
       normalize_product str doc ∉ pl_items r ->
       (rating (product_fields doc) <= rating (fields o))%Q).
Proof.
  intros Hq. split; [|split].
  - apply (listing_in_order d q cat min_price max_price featured0 limit
             "price_asc" "price" 1
             (fun a b => (price a <= price b)%Q));
      [reflexivity|intros x y Hxy; exact Hxy|exact Hq].
  - apply (listing_in_order d q cat min_price max_price featured0 limit
             "price_desc" "price" (-1)
             (fun a b => (price b <= price a)%Q));
      [reflexivity|intros x y Hxy; exact Hxy|exact Hq].
  - apply (listing_in_order d q cat min_price max_price featured0 limit
             "rating_desc" "rating" (-1)
             (fun a b => (rating b <= rating a)%Q));
      [reflexivity|intros x y Hxy; exact Hxy|exact Hq].
Qed.

(** X4. Raising the limit only appends: for a text parameter the store
    takes, the listing for a limit is the beginning of the listing of the
    same request for a larger limit. *)
Theorem list_products_limit_prefix (db : option Database)
    (q cat : option string) (min_price max_price : option Q)
    (featured0 : option bool) (sort : option string) (limit1 limit2 : Z) :
  1 <= limit1 <= limit2 ->
  pattern_accepted regex_valid q = true ->
  exists r1 r2,
    list_products str regex_search regex_valid db q cat min_price max_price featured0
      sort limit1 = Ok r1 /\
    list_products str regex_search regex_valid db q cat min_price max_price featured0
      sort limit2 = Ok r2 /\
    pl_items r1 = take (Z.to_nat limit1) (pl_items r2).
Proof.
  intros Hl Hq. destruct db as [d|].
  - rewrite !list_products_available, Hq. do 2 eexists.
    split; [reflexivity|]. split; [reflexivity|]. simpl.
    rewrite !cursor_limit_take by lia.
    rewrite <- fmap_take, take_take. do 2 f_equal. lia.
  - do 2 eexists. split; [reflexivity|]. split; [reflexivity|].
    simpl. now rewrite take_nil.
Qed.

(** *** Single products *)

Lemma find_one_product_Some (docs : list (ProductDoc (oid := oid))) doc :
  NoDup (map product_oid docs) -> doc ∈ docs ->
  find_one_product (product_oid doc) docs = Some doc.
Proof.
  unfold find_one_product.
  induction docs as [|x docs IH]; intros Hnd Hin; simpl.
  - now apply not_elem_of_nil in Hin.
  - apply NoDup_cons in Hnd as [Hx Hnd].
    apply elem_of_cons in Hin as [->|Hin].
    + now rewrite bool_decide_true by reflexivity.
    + rewrite bool_decide_false; [now apply IH|].
      intros Heq. apply Hx. rewrite Heq. now apply list_elem_of_fmap_2.
Qed.

Lemma find_one_product_inv (k : oid) (docs : list (ProductDoc (oid := oid))) doc :
  find_one_product k docs = Some doc -> doc ∈ docs /\ product_oid doc = k.
Proof.
  unfold find_one_product. intros Hf. apply find_some in Hf as [Hin Hk].
  split; [now apply list_elem_of_In|].
  now apply bool_decide_eq_true in Hk.
Qed.

Lemma elem_of_listing filt sort limit (docs : list (ProductDoc (oid := oid)))
    (o : ProductOut) :
  o ∈ map (normalize_product str)
        (cursor_limit limit (sorted_cursor sort (matching regex_search filt docs))) ->
  exists doc, doc ∈ docs /\ o = normalize_product str doc.
Proof.
  intros Ho. apply list_elem_of_fmap in Ho as (doc & -> & Hdoc).
  apply cursor_limit_subseteq in Hdoc.
  rewrite sorted_cursor_Permutation in Hdoc.
  unfold matching in Hdoc. apply list_elem_of_In, filter_In in Hdoc as [Hin _].
  exists doc. split; [now apply list_elem_of_In|reflexivity].
Qed.

(** X5. With unique keys, the id of a stored product retrieves exactly
    that product, its key printed as [id] and its fields untouched. *)
Theorem get_product_found d (pid : string) (doc : ProductDoc) :
  NoDup (map product_oid (product d)) ->
  doc ∈ product d ->
  ObjectId pid = Some (product_oid doc) ->
  get_product ObjectId str (Some d) pid =
    Ok {| id := str (product_oid doc); fields := product_fields doc |}.
Proof.
  intros Hnd Hin Hpid. unfold get_product. rewrite Hpid.
  now rewrite find_one_product_Some.
Qed.

(** X6. [get_product] has two outcomes only: the 404 "Product not found",
    or a stored product whose key is the object id the string denotes. *)
Theorem get_product_outcome (db : option Database) (pid : string) :
  get_product ObjectId str db pid =
    Raise (HTTPException 404 "Product not found") \/
  exists d k doc,
    db = Some d /\ ObjectId pid = Some k /\
    doc ∈ product d /\ product_oid doc = k /\
    get_product ObjectId str db pid =
      Ok {| id := str k; fields := product_fields doc |}.
Proof.
  destruct db as [d|]; [|now left]. unfold get_product.
  destruct (ObjectId pid) as [k|]; [|now left].
  destruct (find_one_product k (product d)) as [doc|] eqn:Hf; [|now left].
  right. apply find_one_product_inv in Hf as [Hin Hk].
  exists d, k, doc. unfold normalize_product. rewrite Hk. auto.
Qed.

(** X7. Every item of a listing can be fetched by its [id]: with unique
    keys that the store's strings denote again, [get_product] on the
    [id] of a listed item returns that very item. *)
Theorem listed_product_is_retrievable d q cat min_price max_price featured0
    sort limit (r : ProductList) (o : ProductOut) :
  NoDup (map product_oid (product d)) ->
  (forall doc, doc ∈ product d ->
     ObjectId (str (product_oid doc)) = Some (product_oid doc)) ->
  list_products str regex_search regex_valid (Some d) q cat min_price max_price
    featured0 sort limit = Ok r ->
  o ∈ pl_items r ->
  get_product ObjectId str (Some d) (id o) = Ok o.
Proof.
  intros Hnd Hround. rewrite list_products_available.
  destruct (pattern_accepted regex_valid q); [|discriminate].
  intros [= <-] Ho.
  simpl in Ho. apply elem_of_listing in Ho as (doc & Hin & ->).
  unfold get_product, normalize_product at 1. simpl.
  rewrite (Hround doc Hin). now rewrite find_one_product_Some.
Qed.

(** *** Categories *)

Lemma elem_of_distinct_values (seen l : list string) (x : string) :
  x ∈ distinct_values seen l <-> x ∈ l /\ x ∉ seen.
Proof.
  clear ObjectId str fresh_oid fresh_oid_fresh regex_search_valid regex_search
    regex_valid distinct_order_Permutation distinct_order.
  revert seen. induction l as [|y l IH]; intros seen; simpl.
  - split; [intros Hx; now apply not_elem_of_nil in Hx|].
    intros [Hx _]. now apply not_elem_of_nil in Hx.
  - case_bool_decide as Hy.
    + rewrite IH, elem_of_cons. split; [tauto|].
      intros [[->|Hx] Hs]; [contradiction|tauto].
    + rewrite !elem_of_cons, IH, not_elem_of_cons. split.
      * intros [->|[Hx [_ Hs]]]; tauto.
      * intros [[->|Hx] Hs]; [tauto|].
        destruct (decide (x = y)) as [->|Hne]; tauto.
Qed.

Lemma distinct_values_NoDup (seen l : list string) :
  NoDup (distinct_values seen l).
Proof.
  clear ObjectId str fresh_oid fresh_oid_fresh regex_search_valid regex_search
    regex_valid distinct_order_Permutation distinct_order.
  revert seen. induction l as [|y l IH]; intros seen; simpl; [constructor|].
  case_bool_decide; [apply IH|].
  apply NoDup_cons. split; [|apply IH].
  rewrite elem_of_distinct_values, not_elem_of_cons. tauto.
Qed.

(** X8. On an available store [get_categories] returns every category
    that some stored product has, each once, and nothing else. *)
Theorem get_categories_distinct d :
  exists cats,
    get_categories distinct_order (Some d) = Ok cats /\
    NoDup cats /\
    forall x : string,
      x ∈ cats <->
      exists doc, doc ∈ product d /\ category (product_fields doc) = x.
Proof using distinct_order_Permutation.
  eexists. split; [reflexivity|].
  split; [rewrite distinct_order_Permutation; apply distinct_values_NoDup|].
  intros x.
  rewrite distinct_order_Permutation, elem_of_distinct_values,
    list_elem_of_fmap. split.
  - intros [(doc & -> & Hin) _]. eauto.
  - intros (doc & Hin & <-). split; [eauto|apply not_elem_of_nil].
Qed.

(** *** Seeding *)

Lemma create_products_cons (p : Product) (ps : list Product) d :
  create_products str fresh_oid (Some d) (p :: ps) =
  create_products str fresh_oid
    (Some (Build_Database
             (product d ++
                [Build_ProductDoc (fresh_oid (map product_oid (product d))) p])
             (cart d))) ps.
Proof. reflexivity. Qed.

Lemma create_products_spec (ps : list Product) d :
  exists new : list ProductDoc,
    create_products str fresh_oid (Some d) ps =
      Ok (Some (Build_Database (product d ++ new) (cart d))) /\
    map product_fields new = ps /\
    (NoDup (map product_oid (product d)) ->
     NoDup (map product_oid (product d ++ new))).
Proof using fresh_oid_fresh.
  revert d. induction ps as [|p ps IH]; intros d.
  - exists []. rewrite app_nil_r. destruct d. repeat split. auto.
  - set (k := fresh_oid (map product_oid (product d))).
    set (d1 := Build_Database (product d ++ [Build_ProductDoc k p]) (cart d)).
    destruct (IH d1) as (new & Hrun & Hfields & Hnd).
    exists (Build_ProductDoc k p :: new).
    split; [|split].
    + rewrite create_products_cons. fold k. fold d1. rewrite Hrun.
      simpl. now rewrite <- app_assoc.
    + simpl. now rewrite Hfields.
    + intros Hd. rewrite (app_assoc _ [_] new : product d ++ Build_ProductDoc k p :: new = _).
      apply Hnd. simpl. rewrite map_app. simpl.
      apply NoDup_app. split; [exact Hd|]. split; [|apply NoDup_singleton].
      intros x Hx Hx'. apply list_elem_of_singleton in Hx'. subst x.
      now apply fresh_oid_fresh in Hx.
Qed.

Lemma seed_products_nonempty d :
  product d <> [] -> seed_products str fresh_oid (Some d) = Ok (Some d).
Proof.
  intros Hne. unfold seed_products.
  destruct (product d) as [|x l] eqn:Hp; [contradiction|]. reflexivity.
Qed.

Lemma seed_products_empty d :
  product d = [] ->
  exists new : list ProductDoc,
    seed_products str fresh_oid (Some d) =
      Ok (Some (Build_Database new (cart d))) /\
    map product_fields new = demo_products /\
    NoDup (map product_oid new).
Proof using fresh_oid_fresh.
  intros Hp. unfold seed_products. rewrite Hp. simpl.
  destruct (create_products_spec demo_products d) as (new & Hrun & Hf & Hnd).
  rewrite Hp in Hrun, Hnd. simpl in Hrun, Hnd.
  exists new. split; [exact Hrun|]. split; [exact Hf|]. apply Hnd. constructor.
Qed.

(** X9. Seeding a store without products stores exactly the six demo
    products, in their order and under distinct keys, and leaves the
    carts as they are. *)
Theorem seed_products_fills_empty_catalogue d :
  product d = [] ->
  exists d',
    seed_products str fresh_oid (Some d) = Ok (Some d') /\
    map product_fields (product d') = demo_products /\
    length (product d') = 6%nat /\
    NoDup (map product_oid (product d')) /\
    cart d' = cart d.
Proof using fresh_oid_fresh.
  intros Hp. destruct (seed_products_empty d Hp) as (new & Hrun & Hf & Hnd).
  eexists. split; [exact Hrun|]. simpl.
  split; [exact Hf|]. split; [|split; [exact Hnd|reflexivity]].
  now rewrite <- (length_map product_fields), Hf.
Qed.

(** X10. Seeding never fails and seeds once: it leaves an unavailable
    store and a store that has products as they are, and seeding again
    after a seeding changes nothing. *)
Theorem seed_products_idempotent (db : option Database) :
  exists db1,
    seed_products str fresh_oid db = Ok db1 /\
    seed_products str fresh_oid db1 = Ok db1 /\
    (db = None -> db1 = None) /\
    (forall d, db = Some d -> product d <> [] -> db1 = db).
Proof using fresh_oid_fresh.
  destruct db as [d|].
  - destruct (product d) as [|x l] eqn:Hp.
    + destruct (seed_products_empty d Hp) as (new & Hrun & Hf & _).
      eexists. split; [exact Hrun|]. split.
      * apply seed_products_nonempty. simpl. intros ->. discriminate Hf.
      * split; [discriminate|]. intros d0 [= <-]. rewrite Hp. congruence.
    + exists (Some d).
      assert (Hne : product d <> []) by (rewrite Hp; discriminate).
      rewrite (seed_products_nonempty d Hne).
      split; [reflexivity|]. split; [reflexivity|].
      split; [discriminate|reflexivity].
  - exists None. split; [reflexivity|]. split; [reflexivity|].
    split; [reflexivity|discriminate].
Qed.

(** X11. After the seeding of a store without products, [get_categories]
    returns the six categories of the demo products, in the store's
    order: they are the names of the fallback list, each once, in some
    order. *)
Theorem seeded_categories d :
  product d = [] ->
  exists db1 cats,
    seed_products str fresh_oid (Some d) = Ok db1 /\
    get_categories distinct_order db1 = Ok cats /\
    cats ≡ₚ fallback_categories.
Proof using fresh_oid_fresh distinct_order_Permutation.
  intros Hp. destruct (seed_products_empty d Hp) as (new & Hrun & Hf & _).
  do 2 eexists. split; [exact Hrun|]. split; [reflexivity|]. simpl.
  assert (Hcats : map (fun doc : ProductDoc => category (product_fields doc)) new =
                  map category demo_products).
  { rewrite <- Hf, map_map. reflexivity. }
  rewrite Hcats, distinct_order_Permutation.
  apply (bool_decide_unpack _). vm_compute. exact I.
Qed.

(** *** Carts of other sessions, and sequences of upserts *)

Lemma NoDup_map_eq {A B : Type} (f : A -> B) (l : list A) (x y : A) :
  NoDup (map f l) -> x ∈ l -> y ∈ l -> f x = f y -> x = y.
Proof.
  induction l as [|z l IH]; simpl; intros Hnd Hx Hy Heq.
  - now apply not_elem_of_nil in Hx.
  - apply NoDup_cons in Hnd as [Hz Hnd].
    apply elem_of_cons in Hx as [->|Hx]; apply elem_of_cons in Hy as [->|Hy].
    + reflexivity.
    + exfalso. apply Hz. rewrite Heq. now apply list_elem_of_fmap_2.
    + exfalso. apply Hz. rewrite <- Heq. now apply list_elem_of_fmap_2.
    + now apply IH.
Qed.

Lemma update_one_items_sessions k its docs :
  map cart_session_id (update_one_items k its docs) = map cart_session_id docs.
Proof.
  induction docs as [|x docs IH]; simpl; [reflexivity|].
  case_bool_decide; simpl; [reflexivity|]. now rewrite IH.
Qed.

Lemma find_one_cart_update_other sid k its docs :
  (forall c, c ∈ docs -> cart_oid c = k -> cart_session_id c <> sid) ->
  find_one_cart sid (update_one_items k its docs) = find_one_cart sid docs.
Proof.
  induction docs as [|x docs IH]; intros Hk; simpl; [reflexivity|].
  case_bool_decide as Hx; simpl.
  - assert (Hs : cart_session_id x <> sid) by (apply Hk; [left|exact Hx]).
    now rewrite (proj2 (String.eqb_neq _ _) Hs).
  - destruct (String.eqb (cart_session_id x) sid); [reflexivity|].
    apply IH. intros c Hin. apply Hk. now right.
Qed.

Lemma find_one_cart_app_other sid docs c :
  cart_session_id c <> sid ->
  find_one_cart sid (docs ++ [c]) = find_one_cart sid docs.
Proof.
  intros Hs. unfold find_one_cart.
  induction docs as [|x docs IH]; simpl.
  - now rewrite (proj2 (String.eqb_neq _ _) Hs).
  - destruct (String.eqb (cart_session_id x) sid); [reflexivity|exact IH].
Qed.

(** The store after an upsert on an available store, branch by branch. *)
Lemma db_after_available d (cart0 : Cart) :
  bson_encodable (items cart0) = true ->
  db_after str fresh_oid (Some d) cart0 =
    Some (Build_Database (product d)
            match find_one_cart (session_id cart0) (cart d) with
            | Some c => update_one_items (cart_oid c) (items cart0) (cart d)
            | None =>
              cart d ++ [Build_CartDoc (fresh_oid (map cart_oid (cart d)))
                           (session_id cart0) (items cart0)]
            end).
Proof.
  intros He. unfold db_after.
  destruct (find_one_cart (session_id cart0) (cart d)) as [c|] eqn:Hf.
  - now rewrite (upsert_cart_existing _ _ _ He Hf).
  - now rewrite (upsert_cart_new _ _ He Hf).
Qed.

Lemma get_cart_db_after_other d (cart0 : Cart) (sid : string) :
  store_wf d -> sid <> session_id cart0 ->
  get_cart str (db_after str fresh_oid (Some d) cart0) sid =
    get_cart str (Some d) sid.
Proof.
  intros [Hc _] Hne.
  destruct (bson_encodable (items cart0)) eqn:He;
    [|now rewrite db_after_too_large].
  rewrite db_after_available by exact He. unfold get_cart. simpl.
  destruct (find_one_cart (session_id cart0) (cart d)) as [c|] eqn:Hf.
  - rewrite find_one_cart_update_other; [reflexivity|].
    apply find_one_cart_Some in Hf as [Hin Hs].
    intros c0 Hin0 Hk Hs0. apply Hne. rewrite <- Hs0, <- Hs. f_equal.
    now apply (NoDup_map_eq cart_oid (cart d)).
  - rewrite find_one_cart_app_other; [reflexivity|]. simpl. congruence.
Qed.

Lemma get_cart_db_after_same d (cart0 : Cart) :
  bson_encodable (items cart0) = true ->
  store_wf d ->
  exists i,
    get_cart str (db_after str fresh_oid (Some d) cart0) (session_id cart0) =
      Ok {| out_id := Some i; out_session_id := session_id cart0;
            out_items := items cart0 |} /\
    forall old, get_cart str (Some d) (session_id cart0) = Ok old ->
      out_id old <> None -> out_id old = Some i.
Proof using fresh_oid_fresh.
  intros He Hwf.
  destruct (upsert_cart_spec d cart0 He Hwf)
    as (c' & d' & Hup & _ & Hf' & _ & Hits & Hsame).
  exists (str (cart_oid c')). unfold db_after. rewrite Hup. cbn [snd]. split.
  - now rewrite (get_cart_found _ _ _ Hf'), Hits.
  - intros old Hget Hid.
    destruct (find_one_cart (session_id cart0) (cart d)) as [c|] eqn:Hf.
    + rewrite (get_cart_found _ _ _ Hf) in Hget. injection Hget as <-. simpl.
      destruct (Hsame c eq_refl) as [-> _]. reflexivity.
    + rewrite (get_cart_absent _ _ Hf) in Hget. injection Hget as <-.
      now contradiction Hid.
Qed.

Lemma db_after_one_cart_per_session d (cart0 : Cart) :
  one_cart_per_session d ->
  forall d', db_after str fresh_oid (Some d) cart0 = Some d' ->
    one_cart_per_session d'.
Proof.
  unfold one_cart_per_session. intros Hone d'.
  destruct (bson_encodable (items cart0)) eqn:He;
    [|rewrite db_after_too_large by exact He; now intros [= <-]].
  rewrite db_after_available by exact He.
  intros [= <-]. simpl.
  destruct (find_one_cart (session_id cart0) (cart d)) as [c|] eqn:Hf.
  - now rewrite update_one_items_sessions.
  - rewrite map_app. simpl. apply NoDup_app. split; [exact Hone|].
    split; [|apply NoDup_singleton].
    intros s Hs Hs'. apply list_elem_of_singleton in Hs'. subst s.
    apply list_elem_of_fmap in Hs as (c & Hc & Hin).
    apply (proj1 (find_one_cart_None _ _) Hf c Hin). now symmetry.
Qed.

Lemma upserts_snoc (db : option Database) (carts : list Cart) (cart0 : Cart) :
  upserts str fresh_oid db (carts ++ [cart0]) =
    db_after str fresh_oid (upserts str fresh_oid db carts) cart0.
Proof. unfold upserts. apply foldl_snoc. Qed.

Lemma upserts_wf d (carts : list Cart) :
  store_wf d ->
  exists d', upserts str fresh_oid (Some d) carts = Some d' /\ store_wf d' /\
    product d' = product d.
Proof using fresh_oid_fresh.
  intros Hwf. induction carts as [|cart0 carts IH] using rev_ind.
  - exists d. auto.
  - destruct IH as (d1 & Hrun & Hwf1 & Hp1).
    destruct (db_after_wf d1 cart0 Hwf1) as (d2 & Hstep & Hwf2 & Hp2).
    exists d2. rewrite upserts_snoc, Hrun. split; [exact Hstep|].
    split; [exact Hwf2|congruence].
Qed.

Lemma last_items_snoc (sid : string) (carts : list Cart) (cart0 : Cart) :
  last_items sid (carts ++ [cart0]) =
    if String.eqb (session_id cart0) sid && bson_encodable (items cart0)
    then Some (items cart0)
    else last_items sid carts.
Proof. unfold last_items. now rewrite foldl_snoc. Qed.

(** X12. With unique keys, an upsert for one session leaves the cart read
    for every other session as it was. *)
Theorem upsert_cart_other_sessions d (cart0 : Cart) (sid : string) :
  store_wf d -> sid <> session_id cart0 ->
  get_cart str (db_after str fresh_oid (Some d) cart0) sid =
    get_cart str (Some d) sid.
Proof. apply get_cart_db_after_other. Qed.

(** X13. An upsert never touches the catalogue: listings, single
    products and categories are the same before and after it. *)
Theorem upsert_cart_keeps_catalogue (db : option Database) (cart0 : Cart) :
  (forall q cat min_price max_price featured0 sort limit,
     list_products str regex_search regex_valid (db_after str fresh_oid db cart0)
       q cat min_price max_price featured0 sort limit =
     list_products str regex_search regex_valid db
       q cat min_price max_price featured0 sort limit) /\
  (forall pid,
     get_product ObjectId str (db_after str fresh_oid db cart0) pid =
     get_product ObjectId str db pid) /\
  get_categories distinct_order (db_after str fresh_oid db cart0) =
    get_categories distinct_order db.
Proof.
  destruct (bson_encodable (items cart0)) eqn:He;
    [|rewrite db_after_too_large by exact He; repeat split].
  destruct db as [d|]; [|repeat split].
  rewrite db_after_available by exact He. repeat split.
Qed.

(** X14. Sequences of upserts keep the store's invariants: from a store
    with unique keys and at most one cart per session, any sequence of
    upserts leads to such a store, with the same products. *)
Theorem upserts_keep_invariants d (carts : list Cart) :
  store_wf d -> one_cart_per_session d ->
  exists d',
    upserts str fresh_oid (Some d) carts = Some d' /\
    store_wf d' /\ one_cart_per_session d' /\ product d' = product d.
Proof using fresh_oid_fresh.
  intros Hwf Hone. induction carts as [|cart0 carts IH] using rev_ind.
  - exists d. auto.
  - destruct IH as (d1 & Hrun & Hwf1 & Hone1 & Hp1).
    destruct (db_after_wf d1 cart0 Hwf1) as (d2 & Hstep & Hwf2 & Hp2).
    exists d2. rewrite upserts_snoc, Hrun. split; [exact Hstep|].
    split; [exact Hwf2|]. split; [|congruence].
    now apply (db_after_one_cart_per_session d1 cart0).
Qed.

(** X15. The last writer wins: after a sequence of upserts on a store
    with unique keys, the cart read for a session holds the items of the
    last cart submitted for it that the store could encode, and is the
    cart read before the sequence if there was none. *)
Theorem upserts_last_writer_wins d (carts : list Cart) (sid : string) :
  store_wf d ->
  match last_items sid carts with
  | Some its =>
    exists i,
      get_cart str (upserts str fresh_oid (Some d) carts) sid =
        Ok {| out_id := Some i; out_session_id := sid; out_items := its |}
  | None =>
    get_cart str (upserts str fresh_oid (Some d) carts) sid =
      get_cart str (Some d) sid
  end.
Proof using fresh_oid_fresh.
  intros Hwf. induction carts as [|cart0 carts IH] using rev_ind.
  - reflexivity.
  - destruct (upserts_wf d carts Hwf) as (d1 & Hrun & Hwf1 & _).
    rewrite last_items_snoc, upserts_snoc, Hrun. rewrite Hrun in IH.
    destruct (String.eqb_spec (session_id cart0) sid) as [<-|Hne].
    + destruct (bson_encodable (items cart0)) eqn:He; simpl.
      * destruct (get_cart_db_after_same d1 cart0 He Hwf1) as (i & Hget & _).
        eauto.
      * rewrite db_after_too_large by exact He. exact IH.
    + simpl. rewrite get_cart_db_after_other by (exact Hwf1 || congruence).
      exact IH.
Qed.

(** X16. A cart keeps its id: once the cart of a session is read under an
    id, it is read under that id after any sequence of upserts. *)
Theorem upserts_keep_cart_id d (carts : list Cart) (sid : string)
    (old : CartOut) (i : string) :
  store_wf d ->
  get_cart str (Some d) sid = Ok old -> out_id old = Some i ->
  exists now,
    get_cart str (upserts str fresh_oid (Some d) carts) sid = Ok now /\
    out_id now = Some i.
Proof using fresh_oid_fresh.
  intros Hwf Hget Hid. induction carts as [|cart0 carts IH] using rev_ind.
  - exists old. auto.
  - destruct (upserts_wf d carts Hwf) as (d1 & Hrun & Hwf1 & _).
    destruct IH as (now1 & Hget1 & Hid1).
    rewrite upserts_snoc, Hrun. rewrite Hrun in Hget1.
    destruct (String.eqb_spec (session_id cart0) sid) as [<-|Hne].
    + destruct (bson_encodable (items cart0)) eqn:He;
        [|rewrite db_after_too_large by exact He; eauto].
      destruct (get_cart_db_after_same d1 cart0 He Hwf1) as (j & Hgetj & Hj).
      eexists. split; [exact Hgetj|]. simpl.
      rewrite <- Hid1. symmetry. apply Hj; [exact Hget1|congruence].
    + rewrite get_cart_db_after_other by (exact Hwf1 || congruence).
      eauto.
Qed.

(** X17. On an available store with unique keys the cart read back after
    an upsert of items the store can encode is the cart the upsert
    returned; for items it cannot encode the upsert raises and the cart
    read back is the one read before; on an unavailable store the upsert
    returns the submitted items and the cart read back is empty. *)
Theorem upsert_cart_read_back (db : option Database) (cart0 : Cart) :
  (forall d, db = Some d -> store_wf d) ->
  (db <> None -> bson_encodable (items cart0) = true ->
   exists r db',
     upsert_cart str fresh_oid db cart0 = Ok (r, db') /\
     out_items r = items cart0 /\
     get_cart str db' (session_id cart0) = Ok r) /\
  (db <> None -> bson_encodable (items cart0) = false ->
   raises (upsert_cart str fresh_oid db cart0) /\
   get_cart str (db_after str fresh_oid db cart0) (session_id cart0) =
     get_cart str db (session_id cart0)) /\
  (db = None ->
   upsert_cart str fresh_oid db cart0 =
     Ok ({| out_id := None; out_session_id := session_id cart0;
            out_items := items cart0 |}, None) /\
   get_cart str None (session_id cart0) =
     Ok {| out_id := None; out_session_id := session_id cart0;
           out_items := [] |}).
Proof using fresh_oid_fresh.
  intros Hwf. destruct db as [d|].
  - split; [|split; [|discriminate]].
    + intros _ He.
      destruct (upsert_cart_spec d cart0 He (Hwf d eq_refl))
        as (c' & d' & Hup & _ & Hf' & _ & Hits & _).
      do 2 eexists. split; [exact Hup|]. split; [reflexivity|].
      now rewrite (get_cart_found _ _ _ Hf'), Hits.
    + intros _ He. rewrite db_after_too_large by exact He.
      split; [|reflexivity]. exists too_large.
      now apply upsert_cart_too_large.
  - split; [congruence|]. split; [congruence|]. intros _. split; reflexivity.
Qed.

(** *** The status report *)

Lemma len_slice_to (n : nat) (s : string) : (len (slice_to n s) <= n)%nat.
Proof.
  revert n. induction s as [|a s IH]; intros n; simpl; [lia|].
  destruct (continues a) eqn:Ha; simpl.
  - rewrite Ha. apply IH.
  - destruct n as [|n]; simpl; [lia|]. rewrite Ha. specialize (IH n). lia.
Qed.

(** X18. The fields [database_url] and [database_name] of the status
    report say whether the two environment variables are set to a
    non-empty value, and nothing else: they are the same for every handle,
    so the name of the database is never reported. *)
Theorem test_database_reports_environment (db : option Handle)
    (DATABASE_URL DATABASE_NAME : option string) :
  database_url (test_database db DATABASE_URL DATABASE_NAME) =
    Some (if truthy DATABASE_URL then "✅ Set" else "❌ Not Set") /\
  database_name (test_database db DATABASE_URL DATABASE_NAME) =
    Some (if truthy DATABASE_NAME then "✅ Set" else "❌ Not Set") /\
  forall db' : option Handle,
    database_url (test_database db' DATABASE_URL DATABASE_NAME) =
      database_url (test_database db DATABASE_URL DATABASE_NAME) /\
    database_name (test_database db' DATABASE_URL DATABASE_NAME) =
      database_name (test_database db DATABASE_URL DATABASE_NAME).
Proof.
  repeat split.
Qed.

(** X19. The status report lists at most ten collections, the first ten
    the store names; when the store fails to name them the report still
    comes, as connected, with no collections and with the first 50
    characters of the failure's message, no more; and the initial
    "Not Available" is never what it says of the database. *)
Theorem test_database_listing (nm : string) (names : list string)
    (message : string) (db : option Handle)
    (DATABASE_URL DATABASE_NAME : option string) :
  collections (test_database
     (Some {| name := Returned nm; list_collection_names := Returned names |})
     DATABASE_URL DATABASE_NAME) = take 10 names /\
  (length (collections (test_database db DATABASE_URL DATABASE_NAME)) <= 10)%nat /\
  (exists shown,
     test_database
       (Some {| name := Returned nm; list_collection_names := Failed message |})
       DATABASE_URL DATABASE_NAME =
       {| backend := "✅ Running";
          database := "⚠️  Connected but Error: " ++ shown;
          database_url := Some (set_or_not DATABASE_URL);
          database_name := Some (set_or_not DATABASE_NAME);
          connection_status := "Connected";
          collections := [] |} /\
     shown = slice_to 50 message /\
     (len shown <= 50)%nat) /\
  database (test_database db DATABASE_URL DATABASE_NAME) <> "❌ Not Available".
Proof.
  split; [reflexivity|]. split; [|split].
  - destruct db as [[[n|m'] [l|m]]|]; simpl; try lia.
    rewrite length_take. lia.
  - eexists. split; [reflexivity|]. split; [reflexivity|].
    apply len_slice_to.
  - destruct db as [[[n|m'] [l|m]]|]; simpl; discriminate.
Qed.

Lemma matching_no_filter (docs : list (ProductDoc (oid := oid))) :
  matching regex_search (build_filter None None None None None) docs = docs.
Proof.
  unfold matching. induction docs as [|x docs IH]; [reflexivity|].
  change (x :: List.filter
                 (matches regex_search (build_filter None None None None None))
                 docs = x :: docs).
  now rewrite IH.
Qed.

(** X20. A listing without filters and without a known sort value is the
    catalogue itself: when the limit is at least the number of stored
    products, the items are all of them in the store's order, and [total]
    is their number. *)
Theorem list_products_whole_catalogue d (sort : option string) (limit : Z) :
  1 <= limit -> Z.of_nat (length (product d)) <= limit ->
  sort <> Some "price_asc" -> sort <> Some "price_desc" ->
  sort <> Some "rating_desc" ->
  list_products str regex_search regex_valid (Some d) None None None None None sort limit =
    Ok {| pl_items := map (normalize_product str) (product d);
          pl_total := Z.of_nat (length (product d)) |}.
Proof.
  intros Hl Hlen H1 H2 H3. rewrite list_products_available.
  change (pattern_accepted regex_valid None) with true. cbv iota.
  unfold sorted_cursor. rewrite !bool_decide_false by assumption.
  rewrite matching_no_filter, cursor_limit_take by exact Hl.
  rewrite take_ge by lia. now rewrite length_map.
Qed.

End Properties.

(** ** The statements on the concrete store *)

Lemma demo_fresh_oid_fresh (l : list N) : Demo.fresh_oid l ∉ l.
Proof.
  unfold Demo.fresh_oid. intros Hin.
  assert (Hle : forall x, x ∈ l -> (x <= foldr N.max 0 l)%N).
  { clear Hin. induction l as [|y l IH]; intros x Hx.
    - now apply not_elem_of_nil in Hx.
    - apply elem_of_cons in Hx as [->|Hx]; simpl; [lia|].
      specialize (IH x Hx). lia. }
  specialize (Hle _ Hin). lia.
Qed.

Ltac unique_keys :=
  repeat split; apply (bool_decide_unpack _); vm_compute; exact I.

Lemma demo_regex_search_valid (pattern options subject : string) :
  Demo.regex_search pattern options subject = true ->
  Demo.regex_valid pattern = true.
Proof.
  unfold Demo.regex_search. intros Hm. now apply andb_true_iff in Hm as [Hv _].
Qed.

Lemma demo_distinct_order_Permutation (l : list string) :
  Demo.distinct_order l ≡ₚ l.
Proof. apply sort_by_Permutation. Qed.

Example str_ObjectId_7 :
  Demo.str 7 = "000000000000000000000007" /\
  Demo.ObjectId "000000000000000000000007" = Some 7%N /\
  Demo.ObjectId "0000000000000000000000FF" = Some 255%N /\
  Demo.ObjectId "not-an-object-id" = None.
Proof. repeat split. Qed.

Example upsert_p1_then_p2_on_empty_store :
  get_cart Demo.str
    (db_after Demo.str Demo.fresh_oid
       (db_after Demo.str Demo.fresh_oid (Some Demo.empty_db) Demo.cart_p1)
       Demo.cart_p2) "S" =
    Ok {| out_id := Some "000000000000000000000001"; out_session_id := "S";
          out_items := [ {| product_id := "p2"; quantity := 1 |} ] |}.
Proof. reflexivity. Qed.

Example list_products_price_asc_prices :
  match list_products Demo.str Demo.regex_search Demo.regex_valid (Some Demo.demo_db)
          None None None None None (Some "price_asc") 4 with
  | Ok r => map (fun o => price (fields o)) (pl_items r)
  | Raise _ => []
  end = [89%Q; 129%Q; 189%Q; 349%Q].
Proof. reflexivity. Qed.

Example list_products_text_filter_ignores_case :
  match list_products Demo.str Demo.regex_search Demo.regex_valid (Some Demo.demo_db)
          (Some "nebula") None None None None None 50 with
  | Ok r => map (fun o => title (fields o)) (pl_items r)
  | Raise _ => []
  end = ["Nebula Wallet Pro"].
Proof. reflexivity. Qed.

Example get_categories_of_seeded_store :
  get_categories Demo.distinct_order (Some Demo.demo_db) =
    Ok ["Eyewear"; "Jewelry"; "Tech"; "Wallets"; "Watches"; "Wearables"].
Proof. reflexivity. Qed.

Example list_products_pattern_refused :
  list_products Demo.str Demo.regex_search Demo.regex_valid (Some Demo.demo_db)
    (Some "+") None None None None None 50 = Raise invalid_regex.
Proof. reflexivity. Qed.

Example upsert_cart_quantity_refused :
  upsert_cart Demo.str Demo.fresh_oid (Some Demo.demo_db) Demo.cart_huge =
    Raise too_large /\
  upsert_cart Demo.str Demo.fresh_oid (Some Demo.empty_db) Demo.cart_huge =
    Raise too_large.
Proof. split; reflexivity. Qed.

Example create_document_cart_unavailable :
  raises (create_document_cart Demo.str Demo.fresh_oid None (model_dump Demo.cart_p1)).
Proof. eexists. reflexivity. Qed.

(** The full replace on the seeded store, whose session "S" has the cart
    with p1 under the key 7: the upsert of p2 returns and leaves exactly
    p2 under that key. *)
Lemma upsert_cart_full_replace_witness :
  store_wf Demo.demo_db /\
  bson_encodable (items Demo.cart_p2) = true /\
  (exists d',
     upsert_cart Demo.str Demo.fresh_oid (Some Demo.demo_db) Demo.cart_p2 =
       Ok ({| out_id := Some "000000000000000000000007"; out_session_id := "S";
              out_items := [ {| product_id := "p2"; quantity := 1 |} ] |},
           Some d') /\
     get_cart Demo.str (Some d') "S" =
       Ok {| out_id := Some "000000000000000000000007"; out_session_id := "S";
             out_items := [ {| product_id := "p2"; quantity := 1 |} ] |} /\
     length (cart d') = length (cart Demo.demo_db)) /\
  (exists i,
     get_cart Demo.str
       (db_after Demo.str Demo.fresh_oid
          (db_after Demo.str Demo.fresh_oid (Some Demo.demo_db) Demo.cart_p1)
          Demo.cart_p2) "S" =
       Ok {| out_id := Some i; out_session_id := "S";
             out_items := [ {| product_id := "p2"; quantity := 1 |} ] |}).
Proof.
  assert (Hwf : store_wf Demo.demo_db).
  { split; apply (bool_decide_unpack _); vm_compute; exact I. }
  assert (He : bson_encodable (items Demo.cart_p2) = true) by reflexivity.
  split; [exact Hwf|]. split; [exact He|].
  destruct (upsert_cart_full_replace Demo.str Demo.fresh_oid
              demo_fresh_oid_fresh Demo.demo_db Hwf) as [Hreplace Hexample].
  split.
  - refine (Hreplace Demo.cart_p2
              {| out_id := Some "000000000000000000000007";
                 out_session_id := "S";
                 out_items := [ {| product_id := "p1"; quantity := 2 |} ] |}
              "000000000000000000000007" He _ _); reflexivity.
  - exact (Hexample "S" (items Demo.cart_p1) (items Demo.cart_p2) He).
Defined.

(** On the seeded store the session "S" has the cart with p1 under the
    key 7; the upsert of a cart whose quantity is 2^63 raises, returns
    nothing, and the cart read back is still the one with p1: the items
    were not replaced. *)
Lemma upsert_cart_huge_quantity_not_replaced :
  store_wf Demo.demo_db /\
  get_cart Demo.str (Some Demo.demo_db) (session_id Demo.cart_huge) =
    Ok {| out_id := Some "000000000000000000000007"; out_session_id := "S";
          out_items := [ {| product_id := "p1"; quantity := 2 |} ] |} /\
  upsert_cart Demo.str Demo.fresh_oid (Some Demo.demo_db) Demo.cart_huge =
    Raise too_large /\
  get_cart Demo.str
    (db_after Demo.str Demo.fresh_oid (Some Demo.demo_db) Demo.cart_huge)
    (session_id Demo.cart_huge) =
    Ok {| out_id := Some "000000000000000000000007"; out_session_id := "S";
          out_items := [ {| product_id := "p1"; quantity := 2 |} ] |} /\
  ~ (exists d',
       upsert_cart Demo.str Demo.fresh_oid (Some Demo.demo_db) Demo.cart_huge =
         Ok ({| out_id := Some "000000000000000000000007";
                out_session_id := session_id Demo.cart_huge;
                out_items := items Demo.cart_huge |}, Some d')).
Proof.
  split; [unique_keys|]. split; [reflexivity|]. split; [reflexivity|].
  split; [reflexivity|]. intros [d' Hd']. discriminate Hd'.
Qed.

(** The seeded store listed by ascending price with limit 2. *)
Lemma list_products_limit_total_witness :
  1 <= 1 <= 200 /\
  pattern_accepted Demo.regex_valid (Some "neon") = true /\
  exists r,
    list_products Demo.str Demo.regex_search Demo.regex_valid (Some Demo.demo_db)
      (Some "neon") None None None None (Some "price_asc") 1 = Ok r /\
    Z.of_nat (length (pl_items r)) <= 1 /\
    pl_total r = Z.of_nat (length (pl_items r)) /\
    (forall d, Some Demo.demo_db = Some d ->
       pl_total r =
         Z.min 1 (Z.of_nat (length (matching Demo.regex_search
            (build_filter (Some "neon") None None None None) (product d))))).
Proof.
  assert (Hl : 1 <= 1 <= 200) by lia.
  assert (Hq : pattern_accepted Demo.regex_valid (Some "neon") = true)
    by reflexivity.
  split; [exact Hl|]. split; [exact Hq|].
  exact (list_products_limit_total Demo.str Demo.regex_search Demo.regex_valid
           (Some Demo.demo_db) (Some "neon") None None None None
           (Some "price_asc") 1 Hl Hq).
Defined.

(** The seeded store listed with limit 50 and the text ["+"], which is no
    regular expression: the store refuses the query, the handler raises
    and no items and no total are returned. *)
Lemma list_products_refused_pattern_no_listing :
  1 <= 50 <= 200 /\
  list_products Demo.str Demo.regex_search Demo.regex_valid (Some Demo.demo_db)
    (Some "+") None None None None None 50 = Raise invalid_regex /\
  ~ (exists r,
       list_products Demo.str Demo.regex_search Demo.regex_valid
         (Some Demo.demo_db) (Some "+") None None None None None 50 = Ok r).
Proof.
  split; [lia|]. split; [reflexivity|]. intros [r Hr]. discriminate Hr.
Qed.

(** On the unavailable store the upsert of the cart with p1 returns the
    payload and raises nothing: no failure of the store propagates. *)
Lemma unavailable_upsert_returns_payload :
  upsert_cart Demo.str Demo.fresh_oid None Demo.cart_p1 =
    Ok ({| out_id := None; out_session_id := "S";
           out_items := [ {| product_id := "p1"; quantity := 2 |} ] |}, None) /\
  ~ raises (upsert_cart Demo.str Demo.fresh_oid None Demo.cart_p1).
Proof.
  split; [reflexivity|]. intros [e He]. discriminate He.
Qed.

(** The seeded store queried with [min_price=500] and [max_price=100]. *)
Lemma list_products_inverted_range_witness :
  pattern_accepted Demo.regex_valid (Some "neon") = true /\
  (100 < 500)%Q /\
  list_products Demo.str Demo.regex_search Demo.regex_valid (Some Demo.demo_db)
    (Some "neon") None (Some 500%Q) (Some 100%Q) None None 50 =
    Ok {| pl_items := []; pl_total := 0 |}.
Proof.
  assert (Hq : pattern_accepted Demo.regex_valid (Some "neon") = true)
    by reflexivity.
  assert (Hlt : (100 < 500)%Q) by reflexivity.
  split; [exact Hq|]. split; [exact Hlt|].
  exact (list_products_inverted_range Demo.str Demo.regex_search Demo.regex_valid
           (Some Demo.demo_db) (Some "neon") None 500%Q 100%Q None None 50
           Hq Hlt).
Defined.

(** The seeded store queried with [min_price=500], [max_price=100] and
    the text ["+"]: the handler raises instead of returning no items. *)
Lemma list_products_inverted_range_refused_pattern :
  (100 < 500)%Q /\
  list_products Demo.str Demo.regex_search Demo.regex_valid (Some Demo.demo_db)
    (Some "+") None (Some 500%Q) (Some 100%Q) None None 50 =
    Raise invalid_regex /\
  list_products Demo.str Demo.regex_search Demo.regex_valid (Some Demo.demo_db)
    (Some "+") None (Some 500%Q) (Some 100%Q) None None 50 <>
    Ok {| pl_items := []; pl_total := 0 |}.
Proof.
  split; [reflexivity|]. split; [reflexivity|]. discriminate.
Qed.

(** Lookups in the seeded store: a string that is no object id, and the
    object id 255, which no product has. *)
Lemma get_product_not_found_witness :
  Demo.ObjectId "not-an-object-id" = None /\
  get_product Demo.ObjectId Demo.str (Some Demo.demo_db) "not-an-object-id" =
    Raise (HTTPException 404 "Product not found") /\
  Demo.ObjectId "0000000000000000000000ff" = Some 255%N /\
  get_product Demo.ObjectId Demo.str (Some Demo.demo_db)
    "0000000000000000000000ff" =
    Raise (HTTPException 404 "Product not found").
Proof.
  split; [reflexivity|]. split.
  - apply (get_product_not_found Demo.ObjectId Demo.str (Some Demo.demo_db)
             "not-an-object-id").
    left. reflexivity.
  - split; [reflexivity|].
    apply (get_product_not_found Demo.ObjectId Demo.str (Some Demo.demo_db)
             "0000000000000000000000ff").
    right. exists 255%N. split; [reflexivity|].
    intros d doc [= <-] Hin.
    apply (bool_decide_unpack _). revert doc Hin. apply Forall_forall.
    apply (bool_decide_unpack _). vm_compute. exact I.
Defined.



(** Carts of the seeded store: the session "T" has none, the session "S"
    has one. *)
Lemma get_cart_zero_value_or_stored_witness :
  get_cart Demo.str (Some Demo.demo_db) "T" =
    Ok {| out_id := None; out_session_id := "T"; out_items := [] |} /\
  exists d c, Some Demo.demo_db = Some d /\ c ∈ cart d /\
    cart_session_id c = "S" /\
    get_cart Demo.str (Some Demo.demo_db) "S" =
      Ok {| out_id := Some (Demo.str (cart_oid c)); out_session_id := "S";
            out_items := cart_items c |}.
Proof.
  split.
  - apply (get_cart_zero_value_or_stored Demo.str (Some Demo.demo_db) "T").
    intros d c [= <-] Hin. simpl in Hin.
    apply list_elem_of_singleton in Hin. subst c. discriminate.
  - apply (get_cart_zero_value_or_stored Demo.str (Some Demo.demo_db) "S").
    exists Demo.demo_db, (Build_CartDoc 7%N "S" (items Demo.cart_p1)).
    split; [reflexivity|]. split; [|reflexivity].
    simpl. apply list_elem_of_singleton. reflexivity.
Defined.

(** The cart of p2 upserted twice on the seeded store. *)
Lemma upsert_cart_idempotent_witness :
  (forall d, Some Demo.demo_db = Some d -> store_wf d) /\
  bson_encodable (items Demo.cart_p2) = true /\
  db_after Demo.str Demo.fresh_oid
    (db_after Demo.str Demo.fresh_oid (Some Demo.demo_db) Demo.cart_p2)
    Demo.cart_p2 =
  db_after Demo.str Demo.fresh_oid (Some Demo.demo_db) Demo.cart_p2 /\
  get_cart Demo.str
    (db_after Demo.str Demo.fresh_oid
       (db_after Demo.str Demo.fresh_oid (Some Demo.demo_db) Demo.cart_p2)
       Demo.cart_p2) "S" =
  get_cart Demo.str
    (db_after Demo.str Demo.fresh_oid (Some Demo.demo_db) Demo.cart_p2) "S" /\
  exists i,
    get_cart Demo.str
      (db_after Demo.str Demo.fresh_oid (Some Demo.demo_db) Demo.cart_p2) "S" =
      Ok {| out_id := Some i; out_session_id := "S";
            out_items := [ {| product_id := "p2"; quantity := 1 |} ] |}.
Proof.
  assert (Hwf : forall d, Some Demo.demo_db = Some d -> store_wf d).
  { intros d [= <-]. split; apply (bool_decide_unpack _); vm_compute; exact I. }
  assert (He : bson_encodable (items Demo.cart_p2) = true) by reflexivity.
  split; [exact Hwf|]. split; [exact He|].
  destruct (upsert_cart_idempotent Demo.str Demo.fresh_oid
              demo_fresh_oid_fresh (Some Demo.demo_db) Demo.cart_p2 Hwf)
    as (Hstore & Hread & Hitems).
  split; [exact Hstore|]. split; [exact Hread|].
  exact (proj1 (Hitems He) Demo.demo_db eq_refl).
Defined.

(** ** The further properties on the concrete store *)


(** The seeded store searched for "neon", cheapest first: the first item
    is a stored product that matches. *)
Lemma list_products_sound_witness :
  exists r o,
    list_products Demo.str Demo.regex_search Demo.regex_valid (Some Demo.demo_db)
      (Some "neon") None None None None (Some "price_asc") 50 = Ok r /\
    o ∈ pl_items r /\
    exists doc,
      doc ∈ product Demo.demo_db /\
      id o = Demo.str (product_oid doc) /\
      fields o = product_fields doc /\
      satisfies Demo.regex_search (Some "neon") None None None None (fields o).
Proof.
  do 2 eexists. split; [reflexivity|].
  assert (Hin : normalize_product Demo.str
                  (Build_ProductDoc 5%N (Demo.mk "Pulse Band S"
                     "Holographic wearable with health telemetry and soft neon glow."
                     499 "Wearables" (44 # 10) false ["health"; "wearable"])) ∈
                pl_items
                  {| pl_items :=
                       map (normalize_product Demo.str)
                         (cursor_limit 50
                            (sorted_cursor (Some "price_asc")
                               (matching Demo.regex_search
                                  (build_filter (Some "neon") None None None None)
                                  (product Demo.demo_db))));
                     pl_total := 2 |}).
  { apply list_elem_of_In. vm_compute. left. reflexivity. }
  split; [exact Hin|].
  apply (list_products_sound Demo.str Demo.regex_search Demo.regex_valid Demo.demo_db
           (Some "neon") None None None None (Some "price_asc") 50 _ _
           eq_refl Hin).
Defined.

(** The featured products of the seeded store, up to 50: the wallet is
    among them. *)
Lemma list_products_complete_witness :
  1 <= 50 /\
  exists r,
    list_products Demo.str Demo.regex_search Demo.regex_valid (Some Demo.demo_db)
      None None None None (Some true) None 50 = Ok r /\
    normalize_product Demo.str
      (Build_ProductDoc 2%N (Demo.mk "Nebula Wallet Pro"
         "Slim carbon-fiber wallet with RFID shield and magnetic quick-access."
         189 "Wallets" (47 # 10) true ["rfid"; "slim"])) ∈ pl_items r.
Proof.
  assert (Hl : 1 <= 50) by lia.
  split; [exact Hl|].
  apply (list_products_complete Demo.str Demo.regex_search Demo.regex_valid
           demo_regex_search_valid Demo.demo_db
           None None None None (Some true) None 50 _ Hl).
  - vm_compute. discriminate.
  - apply list_elem_of_In. vm_compute. right. left. reflexivity.
  - unfold satisfies. simpl.
    split; [discriminate|]. split; [discriminate|].
    split; [discriminate|]. split; [discriminate|].
    intros b [= <-]. reflexivity.
Defined.

(** The seeded store listed by price with limits 2 and 4. *)
Lemma list_products_limit_prefix_witness :
  1 <= 2 <= 4 /\
  pattern_accepted Demo.regex_valid (Some "a") = true /\
  exists r1 r2,
    list_products Demo.str Demo.regex_search Demo.regex_valid (Some Demo.demo_db)
      (Some "a") None None None None (Some "price_asc") 2 = Ok r1 /\
    list_products Demo.str Demo.regex_search Demo.regex_valid (Some Demo.demo_db)
      (Some "a") None None None None (Some "price_asc") 4 = Ok r2 /\
    pl_items r1 = take (Z.to_nat 2) (pl_items r2).
Proof.
  assert (Hl : 1 <= 2 <= 4) by lia.
  assert (Hq : pattern_accepted Demo.regex_valid (Some "a") = true)
    by reflexivity.
  split; [exact Hl|]. split; [exact Hq|].
  exact (list_products_limit_prefix Demo.str Demo.regex_search Demo.regex_valid
           (Some Demo.demo_db) (Some "a") None None None None
           (Some "price_asc") 2 4 Hl Hq).
Defined.

(** The seeded store listed by price, by price downwards and by rating,
    two items each. *)
Lemma list_products_sorted_witness :
  pattern_accepted Demo.regex_valid None = true /\
  exists r,
    list_products Demo.str Demo.regex_search Demo.regex_valid
      (Some Demo.demo_db) None None None None None (Some "price_asc") 2 =
      Ok r /\
    StronglySorted (fun a b => (price (fields a) <= price (fields b))%Q)
      (pl_items r) /\
    forall (doc : ProductDoc) (o : ProductOut),
      doc ∈ product Demo.demo_db ->
      satisfies Demo.regex_search None None None None None
        (product_fields doc) ->
      o ∈ pl_items r ->
      normalize_product Demo.str doc ∉ pl_items r ->
      (price (fields o) <= price (product_fields doc))%Q.
Proof.
  assert (Hq : pattern_accepted Demo.regex_valid None = true) by reflexivity.
  split; [exact Hq|].
  exact (proj1 (list_products_sorted Demo.str Demo.regex_search
                  Demo.regex_valid Demo.demo_db None None None None None 2 Hq)).
Defined.

(** The categories of the seeded store. *)
Lemma get_categories_distinct_witness :
  exists cats,
    get_categories Demo.distinct_order (Some Demo.demo_db) = Ok cats /\
    NoDup cats /\
    forall x : string,
      x ∈ cats <->
      exists doc, doc ∈ product Demo.demo_db /\
        category (product_fields doc) = x.
Proof.
  exact (get_categories_distinct Demo.distinct_order
           demo_distinct_order_Permutation Demo.demo_db).
Defined.

(** The third product of the seeded store, fetched by its id. *)
Lemma get_product_found_witness :
  NoDup (map product_oid (product Demo.demo_db)) /\
  get_product Demo.ObjectId Demo.str (Some Demo.demo_db)
    "000000000000000000000003" =
    Ok {| id := "000000000000000000000003";
          fields := Demo.mk "Flux Rings Set"
            "Stackable rings with iridescent finish and subtle lumen edge."
            129 "Jewelry" (46 # 10) false ["rings"; "iridescent"] |}.
Proof.
  assert (Hnd : NoDup (map product_oid (product Demo.demo_db))) by unique_keys.
  split; [exact Hnd|].
  apply (get_product_found Demo.ObjectId Demo.str Demo.demo_db
           "000000000000000000000003"
           (Build_ProductDoc 3%N (Demo.mk "Flux Rings Set"
              "Stackable rings with iridescent finish and subtle lumen edge."
              129 "Jewelry" (46 # 10) false ["rings"; "iridescent"])) Hnd).
  - apply list_elem_of_In. vm_compute. right. right. left. reflexivity.
  - reflexivity.
Defined.

(** The cheapest product of the seeded store, listed and then fetched by
    the id the listing gave. *)
Lemma listed_product_is_retrievable_witness :
  NoDup (map product_oid (product Demo.demo_db)) /\
  (forall doc, doc ∈ product Demo.demo_db ->
     Demo.ObjectId (Demo.str (product_oid doc)) = Some (product_oid doc)) /\
  get_product Demo.ObjectId Demo.str (Some Demo.demo_db)
    "000000000000000000000006" =
    Ok (normalize_product Demo.str
          (Build_ProductDoc 6%N (Demo.mk "Ion Dock +"
             "Minimal magnetic charger with soft white halo illumination."
             89 "Tech" (43 # 10) false ["charger"; "dock"]))).
Proof.
  assert (Hnd : NoDup (map product_oid (product Demo.demo_db))) by unique_keys.
  assert (Hround : forall doc, doc ∈ product Demo.demo_db ->
            Demo.ObjectId (Demo.str (product_oid doc)) = Some (product_oid doc)).
  { intros doc Hin. apply (bool_decide_unpack _). revert doc Hin.
    apply Forall_forall. apply (bool_decide_unpack _). vm_compute. exact I. }
  split; [exact Hnd|]. split; [exact Hround|].
  refine (listed_product_is_retrievable Demo.ObjectId Demo.str
            Demo.regex_search Demo.regex_valid Demo.demo_db None None None None None
            (Some "price_asc") 1 _
            (normalize_product Demo.str
               (Build_ProductDoc 6%N (Demo.mk "Ion Dock +"
                  "Minimal magnetic charger with soft white halo illumination."
                  89 "Tech" (43 # 10) false ["charger"; "dock"])))
            Hnd Hround eq_refl _).
  apply list_elem_of_In. vm_compute. left. reflexivity.
Defined.

(** The empty store, seeded. *)
Lemma seed_products_fills_empty_catalogue_witness :
  product Demo.empty_db = [] /\
  exists d',
    seed_products Demo.str Demo.fresh_oid (Some Demo.empty_db) = Ok (Some d') /\
    map product_fields (product d') = demo_products /\
    length (product d') = 6%nat /\
    NoDup (map product_oid (product d')) /\
    cart d' = cart Demo.empty_db.
Proof.
  split; [reflexivity|].
  exact (seed_products_fills_empty_catalogue Demo.str Demo.fresh_oid
           demo_fresh_oid_fresh Demo.empty_db eq_refl).
Defined.

(** The categories of the empty store after its seeding. *)
Lemma seeded_categories_witness :
  product Demo.empty_db = [] /\
  exists db1 cats,
    seed_products Demo.str Demo.fresh_oid (Some Demo.empty_db) = Ok db1 /\
    get_categories Demo.distinct_order db1 = Ok cats /\
    cats ≡ₚ fallback_categories.
Proof.
  split; [reflexivity|].
  exact (seeded_categories Demo.str Demo.fresh_oid demo_fresh_oid_fresh
           Demo.distinct_order demo_distinct_order_Permutation
           Demo.empty_db eq_refl).
Defined.

(** On the seeded store, a cart upserted for the session "T" leaves the
    cart of the session "S" as it was. *)
Lemma upsert_cart_other_sessions_witness :
  store_wf Demo.demo_db /\ "S" <> "T" /\
  get_cart Demo.str
    (db_after Demo.str Demo.fresh_oid (Some Demo.demo_db)
       {| session_id := "T";
          items := [ {| product_id := "p9"; quantity := 3 |} ] |}) "S" =
    get_cart Demo.str (Some Demo.demo_db) "S".
Proof.
  assert (Hwf : store_wf Demo.demo_db) by unique_keys.
  assert (Hne : "S" <> "T") by discriminate.
  split; [exact Hwf|]. split; [exact Hne|].
  exact (upsert_cart_other_sessions Demo.str Demo.fresh_oid Demo.demo_db
           {| session_id := "T";
              items := [ {| product_id := "p9"; quantity := 3 |} ] |}
           "S" Hwf Hne).
Defined.

(** Three upserts on the seeded store, two of them for one session. *)
Lemma upserts_keep_invariants_witness :
  store_wf Demo.demo_db /\ one_cart_per_session Demo.demo_db /\
  exists d',
    upserts Demo.str Demo.fresh_oid (Some Demo.demo_db)
      [ {| session_id := "T"; items := [] |}; Demo.cart_p2;
        {| session_id := "T";
           items := [ {| product_id := "p9"; quantity := 3 |} ] |} ] = Some d' /\
    store_wf d' /\ one_cart_per_session d' /\
    product d' = product Demo.demo_db.
Proof.
  assert (Hwf : store_wf Demo.demo_db) by unique_keys.
  assert (Hone : one_cart_per_session Demo.demo_db) by unique_keys.
  split; [exact Hwf|]. split; [exact Hone|].
  exact (upserts_keep_invariants Demo.str Demo.fresh_oid demo_fresh_oid_fresh
           Demo.demo_db _ Hwf Hone).
Defined.

(** On the seeded store, the carts p1, one for "T", p2 and the cart with
    the quantity 2^63, which the store refuses: the session "S" reads
    p2. *)
Lemma upserts_last_writer_wins_witness :
  store_wf Demo.demo_db /\
  exists i,
    get_cart Demo.str
      (upserts Demo.str Demo.fresh_oid (Some Demo.demo_db)
         [ Demo.cart_p1; {| session_id := "T"; items := [] |}; Demo.cart_p2;
           Demo.cart_huge ])
      "S" =
      Ok {| out_id := Some i; out_session_id := "S";
            out_items := [ {| product_id := "p2"; quantity := 1 |} ] |}.
Proof.
  assert (Hwf : store_wf Demo.demo_db) by unique_keys.
  split; [exact Hwf|].
  exact (upserts_last_writer_wins Demo.str Demo.fresh_oid demo_fresh_oid_fresh
           Demo.demo_db
           [ Demo.cart_p1; {| session_id := "T"; items := [] |}; Demo.cart_p2;
             Demo.cart_huge ]
           "S" Hwf).
Defined.

(** On the seeded store the cart of "S" is read under the key 7, also
    after two upserts. *)
Lemma upserts_keep_cart_id_witness :
  store_wf Demo.demo_db /\
  exists now,
    get_cart Demo.str
      (upserts Demo.str Demo.fresh_oid (Some Demo.demo_db)
         [ Demo.cart_p2; {| session_id := "T"; items := [] |} ]) "S" = Ok now /\
    out_id now = Some "000000000000000000000007".
Proof.
  assert (Hwf : store_wf Demo.demo_db) by unique_keys.
  split; [exact Hwf|].
  refine (upserts_keep_cart_id Demo.str Demo.fresh_oid demo_fresh_oid_fresh
            Demo.demo_db _ "S"
            {| out_id := Some "000000000000000000000007"; out_session_id := "S";
               out_items := [ {| product_id := "p1"; quantity := 2 |} ] |}
            "000000000000000000000007" Hwf _ _); reflexivity.
Defined.

(** The cart p2 upserted on the seeded store and read back. *)
Lemma upsert_cart_read_back_witness :
  (forall d, Some Demo.demo_db = Some d -> store_wf d) /\
  (exists r db',
     upsert_cart Demo.str Demo.fresh_oid (Some Demo.demo_db) Demo.cart_p2 =
       Ok (r, db') /\
     out_items r = items Demo.cart_p2 /\
     get_cart Demo.str db' (session_id Demo.cart_p2) = Ok r) /\
  (raises (upsert_cart Demo.str Demo.fresh_oid (Some Demo.demo_db)
             Demo.cart_huge) /\
   get_cart Demo.str
     (db_after Demo.str Demo.fresh_oid (Some Demo.demo_db) Demo.cart_huge)
     (session_id Demo.cart_huge) =
     get_cart Demo.str (Some Demo.demo_db) (session_id Demo.cart_huge)).
Proof.
  assert (Hwf : forall d, Some Demo.demo_db = Some d -> store_wf d).
  { intros d [= <-]. unique_keys. }
  assert (Hdb : Some Demo.demo_db <> None) by discriminate.
  split; [exact Hwf|]. split.
  - exact (proj1 (upsert_cart_read_back Demo.str Demo.fresh_oid
                    demo_fresh_oid_fresh (Some Demo.demo_db) Demo.cart_p2 Hwf)
             Hdb eq_refl).
  - exact (proj1 (proj2 (upsert_cart_read_back Demo.str Demo.fresh_oid
                    demo_fresh_oid_fresh (Some Demo.demo_db) Demo.cart_huge
                    Hwf))
             Hdb eq_refl).
Defined.

Example test_database_not_configured :
  test_database None (Some "mongodb://localhost") (Some "") =
    {| backend := "✅ Running";
       database := "⚠️  Available but not initialized";
       database_url := Some "✅ Set";
       database_name := Some "❌ Not Set";
       connection_status := "Not Connected";
       collections := [] |}.
Proof. reflexivity. Qed.

(** The seeded store listed without parameters, limit 50. *)
Lemma list_products_whole_catalogue_witness :
  1 <= 50 /\ Z.of_nat (length (product Demo.demo_db)) <= 50 /\
  list_products Demo.str Demo.regex_search Demo.regex_valid (Some Demo.demo_db)
    None None None None None None 50 =
    Ok {| pl_items := map (normalize_product Demo.str) (product Demo.demo_db);
          pl_total := Z.of_nat (length (product Demo.demo_db)) |}.
Proof.
  assert (Hl : 1 <= 50) by lia.
  assert (Hlen : Z.of_nat (length (product Demo.demo_db)) <= 50)
    by (vm_compute; discriminate).
  split; [exact Hl|]. split; [exact Hlen|].
  apply (list_products_whole_catalogue Demo.str Demo.regex_search Demo.regex_valid
           Demo.demo_db None 50 Hl Hlen); discriminate.
Defined.

(** The empty store seeded, and seeded again. *)
Lemma seed_products_idempotent_witness :
  exists db1,
    seed_products Demo.str Demo.fresh_oid (Some Demo.empty_db) = Ok db1 /\
    seed_products Demo.str Demo.fresh_oid db1 = Ok db1 /\
    (Some Demo.empty_db = None -> db1 = None) /\
    (forall d, Some Demo.empty_db = Some d -> product d <> [] ->
       db1 = Some Demo.empty_db).
Proof.
  exact (seed_products_idempotent Demo.str Demo.fresh_oid demo_fresh_oid_fresh
           (Some Demo.empty_db)).
Defined.
